(** * Travel-review API: rating aggregation, review query, comments, signup

    A shallow embedding of the route handlers of [api/index.py] (Flask +
    pymongo) and the properties of the review life cycle they implement.

    - Python values coming out of [request.json] are the type [pyval];
      numbers keep Python's split between [int] (unbounded, [Z]) and [float]
      (IEEE 754 binary64, modelled bit-exactly with the Standard Library's
      [SpecFloat] at precision 53 and exponent bound 1024).
    - A handler is a function from the database state and the request to an
      [outcome] (an HTTP response, or the exception that escaped the handler)
      and the next database state.
    - The two MongoDB collections are lists of documents in insertion order;
      the operations of pymongo used by the handlers ([find_one], [find],
      [sort], [insert_one], [update_one] with [$set] or [$push]) are the
      functions of the module [Mongo].
    - The [_id] of a new document is generated by the driver.  The state
      carries the sequence of ids the driver generates, of which nothing is
      assumed: not that they grow, not that they are new.  The store itself
      refuses an [_id] that the collection already holds. *)

From Stdlib Require Import ZArith QArith Bool List String Ascii Lia.
From Stdlib Require Import Permutation Sorted.
From Stdlib Require Import Floats.SpecFloat.
From stdpp Require Import base option list gmap strings.

Local Open Scope string_scope.
Local Open Scope Z_scope.
Local Open Scope list_scope.

(* ===================================================================== *)
(** ** Exceptions and the result monad *)
(* ===================================================================== *)

(** The exceptions that can escape a handler of this program. *)
Inductive exn : Type :=
| KeyError (key : string)      (* [data["k"]] on a dict without the key *)
| TypeError                    (* [1 <= "abc"], [ObjectId(5)] *)
| InvalidId                    (* bson.errors.InvalidId *)
| OverflowError                (* int too large for a float or for BSON *)
| ZeroDivisionError
| ValueError                   (* raised by the password hasher *)
| DuplicateKeyError.           (* [insert_one] with an [_id] the collection has *)

Inductive res (A : Type) : Type :=
| Ok (a : A)
| Raise (e : exn).
Arguments Ok {A} a.
Arguments Raise {A} e.

#[global] Instance res_ret : MRet res := fun A a => Ok a.
#[global] Instance res_bind : MBind res := fun A B f m =>
  match m with
  | Ok a => f a
  | Raise e => Raise e
  end.

(* ===================================================================== *)
(** ** Python values *)
(* ===================================================================== *)

Module Py.

(** binary64 *)
Definition prec : Z := 53.
Definition emax : Z := 1024.

Definition fmul : spec_float -> spec_float -> spec_float := SFmul prec emax.
Definition fadd : spec_float -> spec_float -> spec_float := SFadd prec emax.
Definition fdiv : spec_float -> spec_float -> spec_float := SFdiv prec emax.

(** JSON values as [request.json] delivers them.  Nested JSON objects are
    not part of the model. *)
#[local] Unset Elimination Schemes.
Inductive pyval : Type :=
| VNone
| VBool (b : bool)
| VInt (z : Z)
| VFloat (f : spec_float)
| VStr (s : string)
| VList (l : list pyval).
#[local] Set Elimination Schemes.

(** Induction on values, through the lists they nest. *)
Fixpoint pyval_nested_ind (P : pyval -> Prop)
    (HNone : P VNone) (HBool : forall b, P (VBool b))
    (HInt : forall z, P (VInt z)) (HFloat : forall f, P (VFloat f))
    (HStr : forall s, P (VStr s))
    (HList : forall l, Forall P l -> P (VList l))
    (v : pyval) {struct v} : P v :=
  match v with
  | VNone => HNone
  | VBool b => HBool b
  | VInt z => HInt z
  | VFloat f => HFloat f
  | VStr s => HStr s
  | VList l =>
      HList l
        ((fix all (l : list pyval) : Forall P l :=
            match l with
            | [] => @List.Forall_nil _ P
            | x :: l' =>
                @List.Forall_cons _ P x l'
                  (pyval_nested_ind P HNone HBool HInt HFloat HStr HList x)
                  (all l')
            end) l)
  end.

(** Python numbers: the values of [review["rating"]], [rating_count] and of
    the arithmetic of [update_rating]. *)
Inductive num : Type :=
| NInt (z : Z)
| NFloat (f : spec_float).

(** [bool] is a subclass of [int]: [True] is 1 in comparisons and sums. *)
Definition to_num (v : pyval) : option num :=
  match v with
  | VBool b => Some (NInt (if b then 1 else 0))
  | VInt z => Some (NInt z)
  | VFloat f => Some (NFloat f)
  | _ => None
  end.

Definition of_num (x : num) : pyval :=
  match x with
  | NInt z => VInt z
  | NFloat f => VFloat f
  end.

Definition is_zero (f : spec_float) : bool :=
  match f with S754_zero _ => true | _ => false end.

Definition is_nan (f : spec_float) : bool :=
  match f with S754_nan => true | _ => false end.

Definition is_infinity (f : spec_float) : bool :=
  match f with S754_infinity _ => true | _ => false end.

(** [not v]: the truth-value test of [if not x]. *)
Definition py_not (v : pyval) : bool :=
  match v with
  | VNone => true
  | VBool b => negb b
  | VInt z => z =? 0
  | VFloat f => is_zero f
  | VStr s => String.eqb s ""
  | VList l => match l with [] => true | _ => false end
  end.

(** *** Exact values and the order of numbers *)

(** The rational a finite float stands for: [(-1)^s * m * 2^e]. *)
Definition float_Q (s : bool) (m : positive) (e : Z) : Q :=
  (inject_Z (if s then Z.neg m else Z.pos m) * Qpower (2 # 1) e)%Q.

(** Numbers on one line: NaN, then -inf, then the finite values (ints and
    floats by exact value), then +inf.  That is the order the document store
    sorts numbers in; without NaN it is the order of Python's comparisons,
    which compare an int and a float by exact value too. *)
Definition num_key (x : num) : Z * Q :=
  match x with
  | NInt z => (2, inject_Z z)
  | NFloat S754_nan => (0, 0%Q)
  | NFloat (S754_infinity true) => (1, 0%Q)
  | NFloat (S754_zero _) => (2, 0%Q)
  | NFloat (S754_finite s m e) => (2, float_Q s m e)
  | NFloat (S754_infinity false) => (3, 0%Q)
  end.

Definition key_leb (a b : Z * Q) : bool :=
  (fst a <? fst b) || ((fst a =? fst b) && Qle_bool (snd a) (snd b)).

Definition key_eqb (a b : Z * Q) : bool :=
  (fst a =? fst b) && Qeq_bool (snd a) (snd b).

Definition num_is_nan (x : num) : bool :=
  match x with NFloat f => is_nan f | NInt _ => false end.

(** Python's [x <= y] on two numbers (false as soon as one is NaN). *)
Definition num_le (x y : num) : bool :=
  negb (num_is_nan x) && negb (num_is_nan y) && key_leb (num_key x) (num_key y).

(** [n <= v] and [v <= n] with an int literal [n], as in
    [1 <= rating <= 5]: a value that is not a number raises TypeError. *)
Definition int_le_py (n : Z) (v : pyval) : res bool :=
  match to_num v with
  | Some y => Ok (num_le (NInt n) y)
  | None => Raise TypeError
  end.

Definition py_le_int (v : pyval) (n : Z) : res bool :=
  match to_num v with
  | Some x => Ok (num_le x (NInt n))
  | None => Raise TypeError
  end.

(** *** Arithmetic *)

(** An int as a float with the same value, before any rounding. *)
Definition exact_float (z : Z) : spec_float :=
  match z with
  | Z0 => S754_zero false
  | Zpos p => S754_finite false p 0
  | Zneg p => S754_finite true p 0
  end.

(** [float(z)]: round to nearest even; OverflowError when the rounded value
    would not be finite, which is from [2^1024 - 2^970] on (half an ulp
    above the largest double). *)
Definition float_overflow : Z := Eval vm_compute in 2 ^ 1024 - 2 ^ 970.

Definition float_of_int (z : Z) : res spec_float :=
  if float_overflow <=? Z.abs z then Raise OverflowError
  else Ok (binary_normalize prec emax z 0 false).

Definition to_float (x : num) : res spec_float :=
  match x with
  | NInt z => float_of_int z
  | NFloat f => Ok f
  end.

Definition num_is_zero (x : num) : bool :=
  match x with
  | NInt z => z =? 0
  | NFloat f => is_zero f
  end.

(** [x * y] and [x + y]: exact on two ints; otherwise both operands become
    floats and the float operation rounds (an overflow gives [inf], no
    exception). *)
Definition py_mul (x y : num) : res num :=
  match x, y with
  | NInt a, NInt b => Ok (NInt (a * b))
  | _, _ => a ← to_float x; b ← to_float y; Ok (NFloat (fmul a b))
  end.

Definition py_add (x y : num) : res num :=
  match x, y with
  | NInt a, NInt b => Ok (NInt (a + b))
  | _, _ => a ← to_float x; b ← to_float y; Ok (NFloat (fadd a b))
  end.

(** [x / y], true division: always a float.  On two ints the quotient of the
    exact values is rounded once; OverflowError when that is not finite.
    A zero divisor raises ZeroDivisionError (an int divisor becomes [0.0]
    only when it is [0]). *)
Definition py_truediv (x y : num) : res num :=
  match x, y with
  | NInt a, NInt b =>
      if b =? 0 then Raise ZeroDivisionError
      else
        let q := fdiv (exact_float a) (exact_float b) in
        if is_infinity q then Raise OverflowError else Ok (NFloat q)
  | _, _ =>
      a ← to_float x; b ← to_float y;
      if num_is_zero y then Raise ZeroDivisionError else Ok (NFloat (fdiv a b))
  end.

End Py.
Export Py.

(** A JSON request body: the dict of [request.json]. *)
Abbreviation json := (gmap string pyval).

(** [data.get(k)]: [None] when the key is missing. *)
Definition py_get (data : json) (k : string) : pyval :=
  default VNone (data !! k).

(** [data.get(k, d)] *)
Definition py_get_default (data : json) (k : string) (d : pyval) : pyval :=
  default d (data !! k).

(** [data[k]]: KeyError when the key is missing. *)
Definition py_index (data : json) (k : string) : res pyval :=
  match data !! k with
  | Some v => Ok v
  | None => Raise (KeyError k)
  end.

(* ===================================================================== *)
(** ** BSON: object ids, encodable values, equality of values *)
(* ===================================================================== *)

Module Bson.

(** An ObjectId is 12 bytes; the model keeps the 96-bit number they spell,
    whose order is the order of ObjectIds. *)
Definition oid : Type := N.

Definition hex_digit (c : ascii) : option N :=
  let n := N_of_ascii c in
  if ((48 <=? n) && (n <=? 57))%N then Some (n - 48)%N
  else if ((97 <=? n) && (n <=? 102))%N then Some (n - 87)%N
  else if ((65 <=? n) && (n <=? 70))%N then Some (n - 55)%N
  else None.

Fixpoint hex_value (s : string) (acc : N) : option N :=
  match s with
  | EmptyString => Some acc
  | String c s' =>
      match hex_digit c with
      | Some d => hex_value s' (16 * acc + d)%N
      | None => None
      end
  end.

(** [ObjectId(v)] on a value of the request: a string of 24 hexadecimal
    digits gives the id of those 12 bytes; a string of another length, or of
    24 characters that are not hexadecimal digits, raises InvalidId; a value
    that is not a string raises TypeError.  (The handlers reject [None]
    before they call it.  bson reads the 24 characters with [bytes.fromhex],
    which skips blanks between pairs of digits: a string that pads fewer
    digits with blanks to 24 characters gives an object of fewer than 12
    bytes, the id of no document, and what the driver sends for it is not
    fixed by this program.  Such strings are outside the model.) *)
Definition ObjectId (v : pyval) : res oid :=
  match v with
  | VStr s =>
      if (String.length s =? 24)%nat then
        match hex_value s 0%N with
        | Some n => Ok n
        | None => Raise InvalidId
        end
      else Raise InvalidId
  | _ => Raise TypeError
  end.

Definition hex_char (d : N) : ascii :=
  ascii_of_N (if (d <? 10)%N then 48 + d else 87 + d)%N.

Fixpoint hex_digits (n : nat) (x : N) (acc : string) : string :=
  match n with
  | O => acc
  | S n' => hex_digits n' (x / 16)%N (String (hex_char (x mod 16)%N) acc)
  end.

(** [str(oid)]: 24 lower-case hexadecimal digits. *)
Definition oid_str (x : oid) : string := hex_digits 24 x "".

(** A value can be written to the store when its ints fit 8 bytes. *)
Fixpoint bson_ok (v : pyval) : bool :=
  match v with
  | VInt z => (- 2 ^ 63 <=? z) && (z <? 2 ^ 63)
  | VList l => forallb bson_ok l
  | _ => true
  end.

(** Encoding the values of a document, a filter or an update:
    OverflowError on an int that does not fit. *)
Definition encode (vs : list pyval) : res unit :=
  if forallb bson_ok vs then Ok tt else Raise OverflowError.

(** Equality of two stored values in a filter: numbers by exact value
    whatever their type (NaN equal to NaN), lists element by element. *)
Fixpoint bson_eq (a b : pyval) : bool :=
  match a, b with
  | VNone, VNone => true
  | VBool x, VBool y => Bool.eqb x y
  | VInt x, VInt y => key_eqb (num_key (NInt x)) (num_key (NInt y))
  | VInt x, VFloat y => key_eqb (num_key (NInt x)) (num_key (NFloat y))
  | VFloat x, VInt y => key_eqb (num_key (NFloat x)) (num_key (NInt y))
  | VFloat x, VFloat y => key_eqb (num_key (NFloat x)) (num_key (NFloat y))
  | VStr x, VStr y => String.eqb x y
  | VList x, VList y =>
      (fix all2 (x y : list pyval) {struct x} : bool :=
         match x, y with
         | [], [] => true
         | a' :: x', b' :: y' => bson_eq a' b' && all2 x' y'
         | _, _ => false
         end) x y
  | _, _ => false
  end.

(** The filter [{field: q}] on a document whose field holds [v]: [v] equals
    [q], or [v] is an array and one of its elements equals [q]. *)
Definition eq_match (v q : pyval) : bool :=
  bson_eq v q ||
  match v with
  | VList l => existsb (fun x => bson_eq x q) l
  | _ => false
  end.

End Bson.
Export Bson.

(* ===================================================================== *)
(** ** Documents and collections *)
(* ===================================================================== *)

Module User.
Record t : Type := mk {
  _id : oid;
  name : pyval;
  email : pyval;
  password : string;          (* the bcrypt hash *)
  address : pyval;
  phone : pyval
}.
End User.

Record comment_doc : Type := {
  user_email : string;
  comment : pyval
}.

Module Review.
Record t : Type := mk {
  _id : oid;
  Name : pyval;
  location : pyval;
  purpose : pyval;
  budget : pyval;
  transport : pyval;
  review : pyval;
  images : pyval;
  rating : num;
  rating_count : Z;
  comments : list comment_doc
}.

(** The fields a filter of [get_reviews] can name. *)
Definition field (k : string) (r : t) : option pyval :=
  if String.eqb k "location" then Some (location r)
  else if String.eqb k "purpose" then Some (purpose r)
  else if String.eqb k "budget" then Some (budget r)
  else if String.eqb k "transport" then Some (transport r)
  else None.

(** [{"$set": {"rating": a, "rating_count": c}}] *)
Definition set_rating (a : num) (c : Z) (r : t) : t :=
  mk (_id r) (Name r) (location r) (purpose r) (budget r) (transport r)
     (review r) (images r) a c (comments r).

(** [{"$push": {"comments": c}}] *)
Definition push_comment (c : comment_doc) (r : t) : t :=
  mk (_id r) (Name r) (location r) (purpose r) (budget r) (transport r)
     (review r) (images r) (rating r) (rating_count r) (comments r ++ [c]).
End Review.

(** The database [travel_reviews], with the ids its driver generates:
    [oids n] is the [n]-th id that an [insert_one] of this service is given,
    by whichever worker process (an ObjectId is the second of the clock,
    five random bytes of the process and a counter), [drawn] the number of
    ids generated so far. *)
Record db : Type := mkdb {
  users_collection : list User.t;
  reviews_collection : list Review.t;
  oids : nat -> oid;
  drawn : nat
}.

(** The id that the next [ObjectId()] returns. *)
Definition next_oid (st : db) : oid := oids st (drawn st).

(** The state once that id has been generated. *)
Definition draw_oid (st : db) : db :=
  mkdb (users_collection st) (reviews_collection st) (oids st) (S (drawn st)).

(** The two collections empty, nothing generated yet. *)
Definition new_db (oids : nat -> oid) : db := mkdb [] [] oids 0.

Module Mongo.
Section Collection.
Context {A : Type}.

(** [find_one(filter)]: the first document that matches, in insertion order. *)
Definition find_one (p : A -> bool) (c : list A) : option A := List.find p c.

(** [find(filter)] *)
Definition find (p : A -> bool) (c : list A) : list A := List.filter p c.

(** [update_one(filter, update)]: the update applied to the first document
    that matches; nothing changes when none does. *)
Fixpoint update_one (p : A -> bool) (f : A -> A) (c : list A) : list A :=
  match c with
  | [] => []
  | d :: c' => if p d then f d :: c' else d :: update_one p f c'
  end.

(** [insert_one(doc)], [doc] with the [_id] the driver gave it: appended,
    unless the collection holds a document with that [_id] (the unique index
    on [_id]). *)
Definition insert_one (id_of : A -> oid) (d : A) (c : list A) : res (list A) :=
  if existsb (fun x => (id_of x =? id_of d)%N) c then Raise DuplicateKeyError
  else Ok (c ++ [d]).

(** [cursor.sort([(key, -1)])], [before a b] saying that [a] may come before
    [b]: an insertion sort that keeps the order of ties. *)
Fixpoint insert_sorted (before : A -> A -> bool) (x : A) (l : list A) : list A :=
  match l with
  | [] => [x]
  | y :: l' => if before x y then x :: y :: l' else y :: insert_sorted before x l'
  end.

Definition sort (before : A -> A -> bool) (l : list A) : list A :=
  fold_right (insert_sorted before) [] l.

End Collection.

(** A filter document [{k1: v1, ...}] on reviews. *)
Definition matches (query : list (string * pyval)) (r : Review.t) : bool :=
  forallb (fun kv => match Review.field (fst kv) r with
                     | Some v => eq_match v (snd kv)
                     | None => false
                     end) query.

Definition by_id (i : oid) (r : Review.t) : bool := (Review._id r =? i)%N.

(** descending [_id] and descending [rating] *)
Definition id_desc (a b : Review.t) : bool := (Review._id b <=? Review._id a)%N.
Definition rating_desc (a b : Review.t) : bool :=
  key_leb (num_key (Review.rating b)) (num_key (Review.rating a)).

End Mongo.

(* ===================================================================== *)
(** ** The route handlers *)
(* ===================================================================== *)

(** The JSON bodies the handlers answer with. *)
Inductive body : Type :=
| Message (message : string)                       (* {"message": m} *)
| Error (error : string)                           (* {"error": e} *)
| Msg (msg : string)                               (* {"msg": m}, from the JWT layer *)
| SignedUp (message token : string) (name : pyval)
| Reviews (reviews : list (string * Review.t)).    (* each with its "_id" as a string *)

(** What a request ends in: [jsonify(body), status], or an exception that
    leaves the handler (Flask answers those with status 500). *)
Inductive outcome : Type :=
| Response (b : body) (status : Z)
| Raised (e : exn).

Definition status_of (o : outcome) : Z :=
  match o with
  | Response _ s => s
  | Raised _ => 500
  end.

(** [collection.insert_one(doc)] on a document without [_id] runs in three
    steps: the driver generates the id, [next_oid], and puts it in the
    document; it encodes the document (OverflowError); the store inserts it,
    or refuses the id (DuplicateKeyError).  An insert that fails has used up
    the id all the same: [draw_oid]. *)

Section Handlers.

(** The collaborators of [signup]: [bcrypt.generate_password_hash] followed
    by [decode], and [create_access_token]. *)
Variable generate_password_hash : pyval -> res string.
Variable create_access_token : pyval -> res string.

Definition signup (st : db) (data : json) : outcome * db :=
  let name := py_get data "name" in
  let email := py_get data "email" in
  let password := py_get data "password" in
  let address := py_get data "address" in
  let phone := py_get data "phone" in
  if py_not name || py_not email || py_not password then
    (Response (Error "Missing required fields") 400, st)
  else
    match encode [email] with
    | Raise e => (Raised e, st)
    | Ok _ =>
        match Mongo.find_one (fun u => eq_match (User.email u) email)
                             (users_collection st) with
        | Some _ => (Response (Error "Email already registered") 409, st)
        | None =>
            match generate_password_hash password with
            | Raise e => (Raised e, st)
            | Ok hashed_password =>
                let user := User.mk (next_oid st) name email hashed_password
                                    address phone in
                match (_ ← encode [name; email; address; phone];
                       Mongo.insert_one User._id user (users_collection st)) with
                | Raise e => (Raised e, draw_oid st)
                | Ok users =>
                    let st' := mkdb users (reviews_collection st)
                                    (oids st) (S (drawn st)) in
                    match create_access_token email with
                    | Raise e => (Raised e, st')
                    | Ok access_token =>
                        (Response
                           (SignedUp "Signup successful!" access_token name) 201,
                         st')
                    end
                end
            end
        end
    end.

End Handlers.

Definition add_review (st : db) (data : json) : outcome * db :=
  match (vName ← py_index data "Name";
         vlocation ← py_index data "location";
         vpurpose ← py_index data "purpose";
         vbudget ← py_index data "budget";
         vtransport ← py_index data "transport";
         vreview ← py_index data "review";
         let vimages := py_get_default data "photo_urls" (VList []) in
         Ok (Review.mk (next_oid st) vName vlocation vpurpose vbudget
                       vtransport vreview vimages (NInt 0) 0 [])) with
  | Raise e => (Raised e, st)
  | Ok review =>
      match (_ ← encode [Review.Name review; Review.location review;
                         Review.purpose review; Review.budget review;
                         Review.transport review; Review.review review;
                         Review.images review];
             Mongo.insert_one Review._id review (reviews_collection st)) with
      | Raise e => (Raised e, draw_oid st)
      | Ok reviews =>
          (Response (Message "Review added successfully!") 201,
           mkdb (users_collection st) reviews (oids st) (S (drawn st)))
      end
  end.

(** [if v: query[k] = v] for a query-string argument. *)
Definition add_filter (k : string) (v : option string)
    (query : list (string * pyval)) : list (string * pyval) :=
  match v with
  | Some s => if String.eqb s "" then query else query ++ [(k, VStr s)]
  | None => query
  end.

Definition get_reviews (st : db) (args : gmap string string) : outcome * db :=
  let query := [] in
  let location := args !! "location" in
  let purpose := args !! "purpose" in
  let budget := args !! "budget" in
  let transport := args !! "transport" in
  let sort := args !! "sort" in
  let query := add_filter "location" location query in
  let query := add_filter "purpose" purpose query in
  let query := add_filter "budget" budget query in
  let query := add_filter "transport" transport query in
  let reviews_cursor := Mongo.find (Mongo.matches query) (reviews_collection st) in
  let reviews_cursor :=
    match sort with
    | Some s =>
        if String.eqb s "newest" then Mongo.sort Mongo.id_desc reviews_cursor
        else if String.eqb s "rating" then Mongo.sort Mongo.rating_desc reviews_cursor
        else reviews_cursor
    | None => reviews_cursor
    end in
  (Response (Reviews (map (fun r => (oid_str (Review._id r), r)) reviews_cursor)) 200,
   st).

(** [identity] is what [jwt_required] found in the bearer token; without a
    valid token the handler body does not run. *)
Definition add_comment (st : db) (identity : option string) (data : json)
    : outcome * db :=
  match identity with
  | None => (Response (Msg "Missing Authorization Header") 401, st)
  | Some email =>
      let review_id := py_get data "reviewId" in
      let comment := py_get data "comment" in
      if py_not review_id || py_not comment then
        (Response (Error "Review ID and comment are required.") 400, st)
      else
        match (i ← ObjectId review_id; _ ← encode [comment]; Ok i) with
        | Raise e => (Raised e, st)
        | Ok i =>
            (Response (Message "Comment added successfully!") 200,
             mkdb (users_collection st)
                  (Mongo.update_one (Mongo.by_id i)
                     (Review.push_comment
                        {| user_email := email; comment := comment |})
                     (reviews_collection st))
                  (oids st) (drawn st))
        end
  end.

(** [update_rating] reads the review with [find_one], computes the new mean
    in the handler, and writes it back with a separate [update_one].  The two
    store operations are the two halves below; [pending] is what the handler
    holds between them. *)
Definition pending : Type := (oid * num * Z)%type.

Definition update_rating_read (st : db) (data : json) : res (outcome + pending) :=
  let review_id := py_get data "reviewId" in
  let rating := py_get data "rating" in
  if py_not review_id || py_not rating then
    Ok (inl (Response (Error "Review ID and rating are required.") 400))
  else
    lo ← int_le_py 1 rating;
    in_range ← (if lo : bool then py_le_int rating 5 else Ok false);
    if negb in_range then
      Ok (inl (Response (Error "Rating must be between 1 and 5.") 400))
    else
      i ← ObjectId review_id;
      match Mongo.find_one (Mongo.by_id i) (reviews_collection st) with
      | None => Ok (inl (Response (Error "Review not found.") 404))
      | Some review =>
          r ← from_option Ok (Raise TypeError) (to_num rating);
          weighted ← py_mul (Review.rating review) (NInt (Review.rating_count review));
          total_rating ← py_add weighted r;
          let new_rating_count := Review.rating_count review + 1 in
          new_avg_rating ← py_truediv total_rating (NInt new_rating_count);
          Ok (inr (i, new_avg_rating, new_rating_count))
      end.

Definition update_rating_write (st : db) (w : pending) : outcome * db :=
  let '(i, new_avg_rating, new_rating_count) := w in
  match encode [of_num new_avg_rating; VInt new_rating_count] with
  | Raise e => (Raised e, st)
  | Ok _ =>
      (Response (Message "Rating updated successfully!") 200,
       mkdb (users_collection st)
            (Mongo.update_one (Mongo.by_id i)
               (Review.set_rating new_avg_rating new_rating_count)
               (reviews_collection st))
            (oids st) (drawn st))
  end.

Definition update_rating (st : db) (data : json) : outcome * db :=
  match update_rating_read st data with
  | Raise e => (Raised e, st)
  | Ok (inl early) => (early, st)
  | Ok (inr w) => update_rating_write st w
  end.

(* ===================================================================== *)
(** ** The other routes *)
(* ===================================================================== *)

(** [jsonify(dict), status] with the dict spelled out, for the routes whose
    bodies have keys of their own; [Failed e] is an exception that leaves
    the handler. *)
Inductive reply : Type :=
| Reply (fields : list (string * pyval)) (status : Z)
| Failed (e : exn).

Definition reply_status (r : reply) : Z :=
  match r with
  | Reply _ s => s
  | Failed _ => 500
  end.

Section Login.

(** [bcrypt.check_password_hash] and [create_access_token]. *)
Variable check_password_hash : string -> pyval -> res bool.
Variable create_access_token : pyval -> res string.

Definition login (st : db) (data : json) : reply * db :=
  let email := py_get data "email" in
  let password := py_get data "password" in
  if py_not email || py_not password then
    (Reply [("error", VStr "Missing email or password")] 400, st)
  else
    match encode [email] with
    | Raise e => (Failed e, st)
    | Ok _ =>
        match Mongo.find_one (fun u => eq_match (User.email u) email)
                             (users_collection st) with
        | Some user =>
            match check_password_hash (User.password user) password with
            | Raise e => (Failed e, st)
            | Ok true =>
                match create_access_token (User.email user) with
                | Raise e => (Failed e, st)
                | Ok access_token =>
                    (Reply [("token", VStr access_token);
                            ("message", VStr "Login successful!");
                            ("name", User.name user)] 200, st)
                end
            | Ok false =>
                (Reply [("error", VStr "Invalid credentials")] 401, st)
            end
        | None => (Reply [("error", VStr "Invalid credentials")] 401, st)
        end
    end.

End Login.

(** [identity] as in [add_comment]: what [jwt_required] found in the token. *)
Definition profile (st : db) (identity : option string) : reply * db :=
  match identity with
  | None => (Reply [("msg", VStr "Missing Authorization Header")] 401, st)
  | Some current_user =>
      match Mongo.find_one (fun u => eq_match (User.email u) (VStr current_user))
                           (users_collection st) with
      | Some user =>
          (Reply [("name", User.name user); ("email", User.email user);
                  ("address", User.address user); ("phone", User.phone user)] 200,
           st)
      | None => (Reply [("error", VStr "User not found")] 404, st)
      end
  end.

(** *** Paths and uploads *)

(** [s.rfind(c)] for a character: the index of its last occurrence, or -1. *)
Fixpoint rfind_from (c : ascii) (s : string) (i last : Z) : Z :=
  match s with
  | EmptyString => last
  | String a s' => rfind_from c s' (i + 1) (if Ascii.eqb a c then i else last)
  end.

Definition rfind (c : ascii) (s : string) : Z := rfind_from c s 0 (-1).

(** [s[:n]] and [s[n:]] for [0 <= n]. *)
Fixpoint str_take (n : nat) (s : string) : string :=
  match n, s with
  | S n', String a s' => String a (str_take n' s')
  | _, _ => EmptyString
  end.

Fixpoint str_drop (n : nat) (s : string) : string :=
  match n, s with
  | S n', String a s' => str_drop n' s'
  | _, _ => s
  end.

Fixpoint all_dots (s : string) : bool :=
  match s with
  | EmptyString => true
  | String a s' => Ascii.eqb a "." && all_dots s'
  end.

(** [os.path.splitext(p)] on POSIX: the extension starts at the last dot of
    the last path component, unless only dots come before it there. *)
Definition splitext (p : string) : string * string :=
  let sepIndex := rfind "/" p in
  let dotIndex := rfind "." p in
  if dotIndex >? sepIndex then
    if all_dots (str_take (Z.to_nat (dotIndex - (sepIndex + 1)))
                          (str_drop (Z.to_nat (sepIndex + 1)) p))
    then (p, EmptyString)
    else (str_take (Z.to_nat dotIndex) p, str_drop (Z.to_nat dotIndex) p)
  else (p, EmptyString).

Definition starts_with_slash (s : string) : bool :=
  match s with
  | String a _ => Ascii.eqb a "/"
  | EmptyString => false
  end.

Fixpoint ends_with_slash (s : string) : bool :=
  match s with
  | EmptyString => false
  | String a EmptyString => Ascii.eqb a "/"
  | String _ s' => ends_with_slash s'
  end.

(** [os.path.join(a, b)] *)
Definition path_join (a b : string) : string :=
  if starts_with_slash b then b
  else if String.eqb a "" || ends_with_slash a then (a ++ b)%string
  else (a ++ "/" ++ b)%string.

Definition UPLOAD_FOLDER : string := "/tmp/uploads".

(** An uploaded file as the handler sees it, and the files on disk. *)
Record upload : Type := {
  filename : string;
  content : string
}.

Abbreviation disk := (gmap string string).

Section Uploads.

(** [str(uuid.uuid4())], by the number of the call within the request. *)
Variable uuid4 : nat -> string.

(** The loop of [upload_photos] from its [n]-th file on: the urls it
    appends and the disk after its [file.save]s. *)
Fixpoint save_files (n : nat) (files : list upload) (fs : disk)
    : list string * disk :=
  match files with
  | [] => ([], fs)
  | file :: rest =>
      let name := (uuid4 n ++ snd (splitext (filename file)))%string in
      let path := path_join UPLOAD_FOLDER name in
      let '(urls, fs') := save_files (S n) rest (<[path := content file]> fs) in
      (("/uploads/" ++ name)%string :: urls, fs')
  end.

(** [files] is [request.files]: the uploads under each field name. *)
Definition upload_photos (files : gmap string (list upload)) (fs : disk)
    : reply * disk :=
  match files !! "photos" with
  | None => (Reply [("error", VStr "No photos uploaded")] 400, fs)
  | Some photos =>
      let '(urls, fs') := save_files 0 photos fs in
      (Reply [("message", VStr "Photos uploaded successfully!");
              ("urls", VList (map VStr urls))] 201, fs')
  end.

End Uploads.

Fixpoint str_mem (c : ascii) (s : string) : bool :=
  match s with
  | EmptyString => false
  | String a s' => Ascii.eqb a c || str_mem c s'
  end.

(** What [str(uuid.uuid4())] looks like, as far as paths care: 36
    characters, none of them a slash. *)
Definition uuid_like (s : string) : Prop :=
  String.length s = 36%nat /\ str_mem "/" s = false.

(** *** Text built by f-strings, and the two outbound calls *)

(** A piece of an f-string: literal text, or [{v}], the [str] of a value. *)
Inductive piece : Type :=
| Lit (text : string)
| Shown (v : pyval).

Definition nl : string := String "010" EmptyString.

(** The prompt of [generate_itinerary], line by line. *)
Definition itinerary_prompt (destination budget transport dates purpose : pyval)
    : list piece :=
  [ Lit (nl ++ "    Generate a personalized travel itinerary based on the following:"
         ++ nl ++ "    - Destination: ")%string;
    Shown destination;
    Lit (nl ++ "    - Budget: $")%string;
    Shown budget;
    Lit (nl ++ "    - Transport Preference: ")%string;
    Shown transport;
    Lit (nl ++ "    - Travel Dates: ")%string;
    Shown dates;
    Lit (nl ++ "    - Purpose: ")%string;
    Shown purpose;
    Lit (nl ++ nl ++ "    The itinerary should include:"
         ++ nl ++ "    - Suggested activities per day"
         ++ nl ++ "    - Places to eat"
         ++ nl ++ "    - Local transport advice"
         ++ nl ++ "    - Accommodation options within budget"
         ++ nl ++ "    - Estimated cost breakdown"
         ++ nl ++ "    ")%string ].

(** What the [try] block gets from the text-generation service: an
    exception with its [str(e)], or the [response.text]. *)
Inductive generated : Type :=
| GenerationError (message : string)
| GeneratedText (text : string).

Section Itinerary.

(** [gemini_model.generate_content(prompt)] and the reading of its text. *)
Variable generate_content : list piece -> generated.

Definition generate_itinerary (data : json) : reply :=
  let destination := py_get data "destination" in
  let budget := py_get data "budget" in
  let transport := py_get data "transport" in
  let dates := py_get_default data "dates" (VStr "not specified") in
  let purpose := py_get_default data "purpose" (VStr "general travel") in
  if py_not destination || py_not budget || py_not transport then
    Reply [("error", VStr "Destination, budget, and transport are required.")] 400
  else
    let prompt := itinerary_prompt destination budget transport dates purpose in
    match generate_content prompt with
    | GeneratedText text =>
        if String.eqb text "" then
          Reply [("error",
                  VStr "Failed to generate itinerary, no content returned.")] 500
        else Reply [("itinerary", VStr text)] 200
    | GenerationError message => Reply [("error", VStr message)] 500
    end.

End Itinerary.

(** A mail as [send_message] composes it. *)
Record mail : Type := {
  subject : string;
  sender : string;
  receiver : string;
  text : string
}.

Definition emoji (a b c d : ascii) : string :=
  String a (String b (String c (String d EmptyString))).

Definition msg_body (name email message : string) : string :=
  (nl ++ "        " ++ emoji "240" "159" "147" "172"
      ++ " New message from Traveller's Verdict:" ++ nl
   ++ nl ++ "        " ++ emoji "240" "159" "145" "164" ++ " Name: " ++ name
   ++ nl ++ "        " ++ emoji "240" "159" "147" "167" ++ " Email: " ++ email
   ++ nl ++ "        " ++ emoji "240" "159" "147" "157" ++ " Message:"
   ++ nl ++ "        " ++ message
   ++ nl ++ "        ")%string.

Section Contact.

(** The [with smtplib.SMTP(...)] block: [None] when the mail went out, else
    the [str(e)] of the exception. *)
Variable smtp_send : mail -> option string.

(** [form] is [request.form]; [outbox] holds the mails that went out. *)
Definition send_message (form : gmap string string) (outbox : list mail)
    : reply * list mail :=
  let name := form !! "name" in
  let email := form !! "email" in
  let message := form !! "message" in
  match name, email, message with
  | Some name, Some email, Some message =>
      if String.eqb name "" || String.eqb email "" || String.eqb message "" then
        (Reply [("error", VStr ("Internal server error: "
                                ++ "Name, email, and message are required."))] 500,
         outbox)
      else
        let msg := {| subject := "New Contact Message";
                      sender := "travellers.verdict@gmail.com";
                      receiver := "travellers.verdict@gmail.com";
                      text := msg_body name email message |} in
        match smtp_send msg with
        | None => (Reply [("message", VStr "Message sent successfully!")] 200,
                   outbox ++ [msg])
        | Some e => (Reply [("error", VStr ("Internal server error: " ++ e))] 500,
                     outbox)
        end
  | _, _, _ =>
      (Reply [("error", VStr ("Internal server error: "
                              ++ "Name, email, and message are required."))] 500,
       outbox)
  end.

End Contact.

(* ===================================================================== *)
(** ** Vocabulary of the properties *)
(* ===================================================================== *)

(** *** Ratings *)

(** The request [{"reviewId": review_id, "rating": r}]. *)
Definition rating_request (review_id : pyval) (r : pyval) : json :=
  <["reviewId" := review_id]> (<["rating" := r]> ∅).

(** [rs] submitted one after the other to the same review. *)
Fixpoint submit_ratings (st : db) (review_id : pyval) (rs : list Z)
    : list outcome * db :=
  match rs with
  | [] => ([], st)
  | r :: rs' =>
      let '(o, st') := update_rating st (rating_request review_id (VInt r)) in
      let '(os, st'') := submit_ratings st' review_id rs' in
      (o :: os, st'')
  end.

(** The arithmetic of [update_rating] on its own: the stored mean [x] and
    count [k] with the rating [r] folded in. *)
Definition fold_rating (x : num) (k : Z) (r : num) : res (num * Z) :=
  weighted ← py_mul x (NInt k);
  total_rating ← py_add weighted r;
  let k' := k + 1 in
  new_avg_rating ← py_truediv total_rating (NInt k');
  Ok (new_avg_rating, k').

Fixpoint fold_ratings (x : num) (k : Z) (rs : list Z) : res (num * Z) :=
  match rs with
  | [] => Ok (x, k)
  | r :: rs' => xk ← fold_rating x k (NInt r); fold_ratings (fst xk) (snd xk) rs'
  end.

Definition sum_Z (rs : list Z) : Z := fold_right Z.add 0 rs.

(** Python's [total / k] on two ints: the quotient, rounded once. *)
Definition mean_of (total k : Z) : spec_float :=
  fdiv (exact_float total) (exact_float k).

(** [sum(rs) / len(rs)] *)
Definition py_mean (rs : list Z) : spec_float :=
  mean_of (sum_Z rs) (Z.of_nat (length rs)).

(** The same float, bit for bit. *)
Definition sf_same (a b : spec_float) : bool :=
  match a, b with
  | S754_zero s, S754_zero s' => Bool.eqb s s'
  | S754_infinity s, S754_infinity s' => Bool.eqb s s'
  | S754_nan, S754_nan => true
  | S754_finite s m e, S754_finite s' m' e' =>
      Bool.eqb s s' && Pos.eqb m m' && Z.eqb e e'
  | _, _ => false
  end.

(** The stored mean of [k] ratings of sum [total] being the float of
    [total / k], a further rating in 1..5 stores the float of the new
    quotient. *)
Definition exact_step (k total : Z) : bool :=
  forallb
    (fun r =>
       match fold_rating (NFloat (mean_of total k)) k (NInt r) with
       | Ok (NFloat f, _) => sf_same f (mean_of (total + r) (k + 1))
       | _ => false
       end)
    [1; 2; 3; 4; 5].

(** The same for every sum that [k] ratings in 1..5 can have. *)
Definition exact_level (k : Z) : bool :=
  forallb (exact_step k) (seqZ k (4 * k + 1)).

(** A stored review whose rating fields are as the handlers leave them:
    the int 0 with count 0 of [add_review], or a float. *)
Definition rated_ok (r : Review.t) : Prop :=
  0 <= Review.rating_count r /\
  ((Review.rating r = NInt 0 /\ Review.rating_count r = 0) \/
   exists f, Review.rating r = NFloat f).

(** The exact value of a float, when it has one. *)
Definition float_value (f : spec_float) : option Q :=
  match f with
  | S754_zero _ => Some 0%Q
  | S754_finite s m e => Some (float_Q s m e)
  | _ => None
  end.

(** A number outside the range 1..5: an int or a float by its value, the
    non-finite floats, and [False], which is 0. *)
Inductive outside_1_5 : pyval -> Prop :=
| outside_int z : z < 1 \/ 5 < z -> outside_1_5 (VInt z)
| outside_false : outside_1_5 (VBool false)
| outside_float f q :
    float_value f = Some q -> (q < 1 \/ 5 < q)%Q -> outside_1_5 (VFloat f)
| outside_nonfinite f : float_value f = None -> outside_1_5 (VFloat f).

(** The store once [update_one] has set the rating fields of review [i]. *)
Definition store_rating (st : db) (i : oid) (a : num) (k : Z) : db :=
  mkdb (users_collection st)
       (Mongo.update_one (Mongo.by_id i) (Review.set_rating a k)
          (reviews_collection st))
       (oids st) (drawn st).

(** *** Identifiers *)

Definition ids_of (st : db) : list oid := map Review._id (reviews_collection st).

(** No two reviews have the same id. *)
Definition wf_db (st : db) : Prop := NoDup (ids_of st).

(** The ids fit the 12 bytes of an ObjectId. *)
Definition ids_12_bytes (st : db) : Prop :=
  Forall (fun i => (i < 2 ^ 96)%N) (ids_of st).

(** The ids grew with creation: each review has a larger id than the reviews
    stored before it. *)
Definition ids_grow (st : db) : Prop := StronglySorted N.lt (ids_of st).

(** The ids of the reviews are ids the driver generated, stored in the order
    it generated them. *)
Definition ids_drawn (st : db) : Prop :=
  exists ks : list nat,
    ids_of st = map (oids st) ks /\
    StronglySorted lt ks /\
    Forall (fun k => (k < drawn st)%nat) ks.

(** The driver generates larger and larger ids. *)
Definition oids_grow (st : db) : Prop :=
  forall n m, (n < m)%nat -> (oids st n < oids st m)%N.

(** *** Users *)

Definition emails (st : db) : list pyval := map User.email (users_collection st).

(** Stored emails are what [signup] lets through: truthy and encodable. *)
Definition users_ok (st : db) : Prop :=
  Forall (fun e => py_not e = false /\ bson_ok e = true) (emails st).

(** *** Queries *)

Definition filter_keys : list string :=
  ["location"; "purpose"; "budget"; "transport"].

(** The field value [x] satisfies the filter value [v]: it is that string,
    or an array that holds it. *)
Definition field_is (x : pyval) (v : string) : Prop :=
  x = VStr v \/ exists l, x = VList l /\ In (VStr v) l.

(** [r] passes every filter of [args] that has a non-empty value. *)
Definition selected (args : gmap string string) (r : Review.t) : Prop :=
  forall k v, In k filter_keys -> args !! k = Some v -> v <> "" ->
    exists x, Review.field k r = Some x /\ field_is x v.

Definition no_filters (args : gmap string string) : Prop :=
  forall k, In k filter_keys -> args !! k = None \/ args !! k = Some "".

(** The filter document [get_reviews] builds from the query string. *)
Definition query_of (args : gmap string string) : list (string * pyval) :=
  add_filter "transport" (args !! "transport")
    (add_filter "budget" (args !! "budget")
       (add_filter "purpose" (args !! "purpose")
          (add_filter "location" (args !! "location") []))).

(** The reviews that match, in stored order. *)
Definition matching (st : db) (args : gmap string string) : list Review.t :=
  Mongo.find (Mongo.matches (query_of args)) (reviews_collection st).

(** One filter of the query string on one review. *)
Definition passes (k : string) (v : option string) (r : Review.t) : bool :=
  match v with
  | Some s =>
      if String.eqb s "" then true
      else match Review.field k r with
           | Some x => eq_match x (VStr s)
           | None => false
           end
  | None => true
  end.

(** The cursor after the optional [sort]. *)
Definition order_by (sort : option string) (l : list Review.t) : list Review.t :=
  match sort with
  | Some s =>
      if String.eqb s "newest" then Mongo.sort Mongo.id_desc l
      else if String.eqb s "rating" then Mongo.sort Mongo.rating_desc l
      else l
  | None => l
  end.

(** The reviews of a response of [get_reviews]. *)
Definition returned (o : outcome) : list Review.t :=
  match o with
  | Response (Reviews l) _ => map snd l
  | _ => []
  end.

(** [a] is rated at least as high as [b]. *)
Definition rated_ge (a b : Review.t) : Prop :=
  key_leb (num_key (Review.rating b)) (num_key (Review.rating a)) = true.

(** The id of [a] is at least the id of [b]. *)
Definition id_ge (a b : Review.t) : Prop := (Review._id b <= Review._id a)%N.

(** *** Submissions *)

(** The keys [add_review] indexes the body with. *)
Definition required_keys : list string :=
  ["Name"; "location"; "purpose"; "budget"; "transport"; "review"].

(** *** Comments *)

Definition comment_request (review_id comment : pyval) : json :=
  <["reviewId" := review_id]> (<["comment" := comment]> ∅).

Definition comments_of (st : db) (i : oid) : option (list comment_doc) :=
  Review.comments <$> Mongo.find_one (Mongo.by_id i) (reviews_collection st).

(** *** Two invocations of [update_rating] at once *)

(** Each invocation is a [find_one] and, later, an [update_one]; the store
    runs one operation at a time, in the order of a schedule. *)
Module Interleaving.

Inductive thread : Type := T1 | T2.

Inductive op : Type :=
| FindOne (t : thread)       (* the handler up to the computed mean *)
| UpdateOne (t : thread).    (* the write and the answer *)

Inductive slot : Type :=
| Idle
| Holding (w : pending)
| Done (o : outcome).

Record world : Type := mkworld {
  store : db;
  slot1 : slot;
  slot2 : slot
}.

Definition slot_of (t : thread) (w : world) : slot :=
  match t with T1 => slot1 w | T2 => slot2 w end.

Definition with_slot (t : thread) (st : db) (s : slot) (w : world) : world :=
  match t with
  | T1 => mkworld st s (slot2 w)
  | T2 => mkworld st (slot1 w) s
  end.

Definition exec (d1 d2 : json) (w : world) (o : op) : world :=
  match o with
  | FindOne t =>
      match slot_of t w with
      | Idle =>
          let data := match t with T1 => d1 | T2 => d2 end in
          with_slot t (store w)
            match update_rating_read (store w) data with
            | Raise e => Done (Raised e)
            | Ok (inl early) => Done early
            | Ok (inr p) => Holding p
            end w
      | _ => w
      end
  | UpdateOne t =>
      match slot_of t w with
      | Holding p =>
          let '(o, st') := update_rating_write (store w) p in
          with_slot t st' (Done o) w
      | _ => w
      end
  end.

Definition run (d1 d2 : json) (s : list op) (st : db) : world :=
  fold_left (exec d1 d2) s (mkworld st Idle Idle).

(** The six orders in which the four operations can reach the store. *)
Definition schedules : list (list op) :=
  [ [FindOne T1; UpdateOne T1; FindOne T2; UpdateOne T2];
    [FindOne T2; UpdateOne T2; FindOne T1; UpdateOne T1];
    [FindOne T1; FindOne T2; UpdateOne T1; UpdateOne T2];
    [FindOne T1; FindOne T2; UpdateOne T2; UpdateOne T1];
    [FindOne T2; FindOne T1; UpdateOne T1; UpdateOne T2];
    [FindOne T2; FindOne T1; UpdateOne T2; UpdateOne T1] ].

(** The ratings a schedule leaves in the stored mean, in the order they
    were folded in: both when one invocation ends before the other starts,
    only that of the last writer otherwise. *)
Definition rating_of (r1 r2 : Z) (t : thread) : Z :=
  match t with T1 => r1 | T2 => r2 end.

Definition reflected (r1 r2 : Z) (s : list op) : list Z :=
  match s with
  | [FindOne a; UpdateOne _; FindOne b; UpdateOne _] =>
      [rating_of r1 r2 a; rating_of r1 r2 b]
  | [FindOne _; FindOne _; UpdateOne _; UpdateOne b] => [rating_of r1 r2 b]
  | _ => []
  end.

(** One invocation ends before the other starts. *)
Definition serial (s : list op) : bool :=
  match s with
  | FindOne T1 :: UpdateOne T1 :: _ => true
  | FindOne T2 :: UpdateOne T2 :: _ => true
  | _ => false
  end.

End Interleaving.

(** *** The service as a state machine *)

Inductive request : Type :=
| Signup (data : json)
| AddReview (data : json)
| GetReviews (args : gmap string string)
| AddComment (identity : option string) (data : json)
| UpdateRating (data : json).

Section Service.
Variable generate_password_hash : pyval -> res string.
Variable create_access_token : pyval -> res string.

Definition handle (st : db) (rq : request) : outcome * db :=
  match rq with
  | Signup data => signup generate_password_hash create_access_token st data
  | AddReview data => add_review st data
  | GetReviews args => get_reviews st args
  | AddComment identity data => add_comment st identity data
  | UpdateRating data => update_rating st data
  end.

(** The stores the service can be in, starting empty, whatever ids the
    driver generates. *)
Inductive reachable : db -> Prop :=
| reachable_empty (oids : nat -> oid) : reachable (new_db oids)
| reachable_step (st : db) (rq : request) :
    reachable st -> reachable (snd (handle st rq)).

End Service.

(** What every reachable store satisfies. *)
Definition db_ok (st : db) : Prop :=
  wf_db st /\
  (oids_grow st -> ids_grow st) /\
  Forall rated_ok (reviews_collection st) /\
  users_ok st /\
  NoDup (emails st).

(** *** Sample data *)


Definition sample_review : json :=
  list_to_map [("Name", VStr "Ann"); ("location", VStr "Paris");
               ("purpose", VStr "leisure"); ("budget", VStr "low");
               ("transport", VStr "train"); ("review", VStr "Lovely.")].

Definition review_in (place : pyval) : json :=
  <["location" := place]> sample_review.

(** An empty store whose driver generates the ids 0, 1, 2, ... *)
Definition empty_db : db := new_db N.of_nat.

(** Two worker processes within one second: the first id generated has the
    random bytes ff ff ff ff ff, the next one 00 00 00 00 00. *)
Definition two_processes (n : nat) : oid :=
  match n with
  | O => 0x65a1b2c3ffffffffff000001%N
  | _ => 0x65a1b2c30000000000000001%N
  end.

(** The store after one [add_review]; its review has id 0. *)
Definition one_review : db := snd (add_review empty_db sample_review).

Definition id0 : pyval := VStr "000000000000000000000000".
Definition id7 : pyval := VStr "000000000000000000000007".

Definition id1 : pyval := VStr "000000000000000000000001".

(** Three reviews with ids 0, 1, 2: Paris rated 3.0, Rome rated 5.0, and an
    unrated one whose location is an array. *)
Definition three_reviews : db :=
  let st := snd (add_review empty_db (review_in (VStr "Paris"))) in
  let st := snd (add_review st (review_in (VStr "Rome"))) in
  let st := snd (add_review st (review_in (VList [VStr "Paris"; VStr "Lyon"]))) in
  let st := snd (update_rating st (rating_request id0 (VInt 3))) in
  snd (update_rating st (rating_request id1 (VInt 5))).

Definition sample_user : json :=
  list_to_map [("name", VStr "Ann"); ("email", VStr "ann@example.org");
               ("password", VStr "secret")].

Definition hash_stub (_ : pyval) : res string := Ok "$2b$12$hash".
Definition token_stub (_ : pyval) : res string := Ok "token".

(** The store after one [signup]. *)
Definition one_user : db := snd (signup hash_stub token_stub empty_db sample_user).

Definition check_stub (_ : string) (_ : pyval) : res bool := Ok true.

(** The review of [one_review]. *)
Definition sample_stored : Review.t :=
  Review.mk 0%N (VStr "Ann") (VStr "Paris") (VStr "leisure") (VStr "low")
            (VStr "train") (VStr "Lovely.") (VList []) (NInt 0) 0 [].

Definition uuid_stub (n : nat) : string :=
  match n with
  | O => "00000000-0000-4000-8000-000000000000"
  | _ => "00000000-0000-4000-8000-000000000001"
  end.

Definition two_photos : gmap string (list upload) :=
  {[ "photos" := [ {| filename := "beach.jpg"; content := "JPEG" |};
                   {| filename := "../notes"; content := "text" |} ] ]}.

(* ===================================================================== *)
(** ** The order of numbers *)
(* ===================================================================== *)

Section NumberOrder.

Lemma key_leb_spec (a b : Z * Q) :
  key_leb a b = true <->
  fst a < fst b \/ (fst a = fst b /\ (snd a <= snd b)%Q).
Proof.
  unfold key_leb.
  rewrite orb_true_iff, andb_true_iff, Z.ltb_lt, Z.eqb_eq, Qle_bool_iff.
  reflexivity.
Qed.

Lemma key_leb_total (a b : Z * Q) : key_leb a b = false -> key_leb b a = true.
Proof.
  intros H. apply key_leb_spec.
  destruct (Z.lt_trichotomy (fst a) (fst b)) as [Hlt | [Heq | Hgt]].
  - assert (key_leb a b = true) by (apply key_leb_spec; auto). congruence.
  - destruct (Qlt_le_dec (snd b) (snd a)) as [Hq | Hq].
    + right. split; [lia | apply Qlt_le_weak, Hq].
    + assert (key_leb a b = true) by (apply key_leb_spec; auto). congruence.
  - left. lia.
Qed.

Lemma key_leb_trans (a b c : Z * Q) :
  key_leb a b = true -> key_leb b c = true -> key_leb a c = true.
Proof.
  rewrite !key_leb_spec.
  intros [H1 | [H1 Q1]] [H2 | [H2 Q2]]; try (left; lia).
  right. split; [lia | eapply Qle_trans; eassumption].
Qed.

Lemma key_leb_int (a b : Z) :
  key_leb (num_key (NInt a)) (num_key (NInt b)) = (a <=? b).
Proof.
  apply eq_true_iff_eq. rewrite key_leb_spec, Z.leb_le. simpl.
  rewrite <- Zle_Qle. lia.
Qed.

Lemma num_le_int (a b : Z) : num_le (NInt a) (NInt b) = (a <=? b).
Proof. unfold num_le. simpl num_is_nan. simpl negb. apply key_leb_int. Qed.

(** Python's comparison against an int literal, on a float with a value. *)
Lemma int_le_float (n : Z) (f : spec_float) (q : Q) :
  float_value f = Some q ->
  num_le (NInt n) (NFloat f) = Qle_bool (inject_Z n) q.
Proof.
  destruct f as [s | s | | s m e]; simpl; intros H; try discriminate;
    injection H as <-; unfold num_le, key_leb; simpl; reflexivity.
Qed.

Lemma float_le_int (n : Z) (f : spec_float) (q : Q) :
  float_value f = Some q ->
  num_le (NFloat f) (NInt n) = Qle_bool q (inject_Z n).
Proof.
  destruct f as [s | s | | s m e]; simpl; intros H; try discriminate;
    injection H as <-; unfold num_le, key_leb; simpl; reflexivity.
Qed.

(** NaN fails every comparison; an infinity fails one of the two. *)
Lemma nonfinite_not_in_range (f : spec_float) :
  float_value f = None ->
  num_le (NInt 1) (NFloat f) && num_le (NFloat f) (NInt 5) = false.
Proof.
  destruct f as [s | [|] | | s m e]; simpl; intros H; try discriminate;
    reflexivity.
Qed.

End NumberOrder.

(* ===================================================================== *)
(** ** update_rating: the range check *)
(* ===================================================================== *)

Lemma py_get_lookup (data : json) (k : string) (v : pyval) :
  data !! k = Some v -> py_get data k = v.
Proof. unfold py_get. intros ->. reflexivity. Qed.

(** The checks of [update_rating] that precede the store, on a number. *)
Lemma not_in_range (v : pyval) :
  outside_1_5 v ->
  py_not v = true \/
  exists lo, int_le_py 1 v = Ok lo /\
    exists hi, (if lo then py_le_int v 5 else Ok false) = Ok hi /\ hi = false.
Proof.
  intros H. destruct H as [z Hz | | f q Hv Hq | f Hv].
  - right. unfold int_le_py, py_le_int. simpl to_num. cbv beta iota.
    rewrite !num_le_int. eexists. split; [reflexivity |].
    destruct (1 <=? z) eqn:E1.
    + eexists. split; [reflexivity |]. apply Z.leb_gt. apply Z.leb_le in E1. lia.
    + eexists. split; reflexivity.
  - left. reflexivity.
  - right. unfold int_le_py, py_le_int. simpl to_num. cbv beta iota.
    rewrite (int_le_float 1 f q Hv), (float_le_int 5 f q Hv).
    eexists. split; [reflexivity |].
    destruct (Qle_bool (inject_Z 1) q) eqn:E1.
    + eexists. split; [reflexivity |].
      destruct (Qle_bool q (inject_Z 5)) eqn:E5; [| reflexivity].
      apply Qle_bool_iff in E1, E5. destruct Hq as [Hq | Hq].
      * exfalso. apply (Qlt_not_le _ _ Hq). exact E1.
      * exfalso. apply (Qlt_not_le _ _ Hq). exact E5.
    + eexists. split; reflexivity.
  - right. unfold int_le_py, py_le_int. simpl to_num. cbv beta iota.
    pose proof (nonfinite_not_in_range f Hv) as Hn.
    eexists. split; [reflexivity |].
    destruct (num_le (NInt 1) (NFloat f)).
    + eexists. split; [reflexivity |]. exact Hn.
    + eexists. split; reflexivity.
Qed.

(** C2. A rating that is a number outside the inclusive range 1..5 (an int
    or a float by its value, an infinity, NaN, or [False]) makes
    [update_rating] answer 400 with an error body, whatever the rest of the
    request; the store, and so every review's rating and rating_count, is
    left as it was. *)
Theorem update_rating_out_of_range (st : db) (data : json) (v : pyval) :
  data !! "rating" = Some v ->
  outside_1_5 v ->
  exists msg, update_rating st data = (Response (Error msg) 400, st).
Proof.
  intros Hget Hout.
  unfold update_rating, update_rating_read.
  rewrite (py_get_lookup data "rating" v Hget).
  destruct (py_not (py_get data "reviewId")) eqn:Hid; simpl orb.
  { eexists. reflexivity. }
  destruct (not_in_range v Hout) as [Hz | (lo & Hlo & hi & Hhi & ->)].
  - rewrite Hz. eexists. reflexivity.
  - destruct (py_not v); [eexists; reflexivity |].
    rewrite Hlo. simpl. rewrite Hhi. simpl. eexists. reflexivity.
Qed.

Lemma update_rating_out_of_range_witness :
  exists msg,
    update_rating one_review (rating_request id0 (VInt 6))
    = (Response (Error msg) 400, one_review).
Proof.
  apply (update_rating_out_of_range one_review
           (rating_request id0 (VInt 6)) (VInt 6)).
  - reflexivity.
  - apply outside_int. lia.
Defined.

(* ===================================================================== *)
(** ** add_review: a body without a required key *)
(* ===================================================================== *)

(** C10. When the body of [add_review] lacks one of the keys Name, location,
    purpose, budget, transport, review, indexing the dict raises KeyError at
    the first key that is missing, before [insert_one]: the handler produces
    no response of its own (so not the 201) and the store is unchanged. *)
Theorem add_review_missing_key (st : db) (data : json) (k : string) :
  In k required_keys ->
  data !! k = None ->
  exists k', In k' required_keys /\ data !! k' = None /\
             add_review st data = (Raised (KeyError k'), st).
Proof.
  intros Hk Hnone. unfold add_review, py_index.
  destruct (data !! "Name") as [v1 |] eqn:E1; simpl;
    [| exists "Name"; repeat split; simpl; auto].
  destruct (data !! "location") as [v2 |] eqn:E2; simpl;
    [| exists "location"; repeat split; simpl; auto].
  destruct (data !! "purpose") as [v3 |] eqn:E3; simpl;
    [| exists "purpose"; repeat split; simpl; auto].
  destruct (data !! "budget") as [v4 |] eqn:E4; simpl;
    [| exists "budget"; repeat split; simpl; auto 6].
  destruct (data !! "transport") as [v5 |] eqn:E5; simpl;
    [| exists "transport"; repeat split; simpl; auto 7].
  destruct (data !! "review") as [v6 |] eqn:E6; simpl;
    [| exists "review"; repeat split; simpl; auto 8].
  exfalso. simpl in Hk.
  destruct Hk as [<- | [<- | [<- | [<- | [<- | [<- | []]]]]]]; congruence.
Qed.

Lemma add_review_missing_key_witness :
  exists k', In k' required_keys /\ (delete "budget" sample_review) !! k' = None /\
             add_review empty_db (delete "budget" sample_review)
             = (Raised (KeyError k'), empty_db).
Proof.
  apply (add_review_missing_key empty_db (delete "budget" sample_review) "budget").
  - simpl. auto.
  - reflexivity.
Defined.

(** What [insert_one] lets through: an id the collection did not hold. *)
Lemma insert_one_inv {A : Type} (id_of : A -> oid) (d : A) (c c' : list A) :
  Mongo.insert_one id_of d c = Ok c' ->
  c' = c ++ [d] /\ Forall (fun x => id_of x <> id_of d) c.
Proof.
  unfold Mongo.insert_one.
  destruct (existsb (fun x => (id_of x =? id_of d)%N) c) eqn:E; [discriminate |].
  intros H. injection H as <-. split; [reflexivity |].
  apply List.Forall_forall. intros x Hx Heq.
  assert (existsb (fun x => (id_of x =? id_of d)%N) c = true) as Ht.
  { apply existsb_exists. exists x. split; [exact Hx | apply N.eqb_eq; exact Heq]. }
  congruence.
Qed.

(** With every key present (and values the store can encode) the review is
    appended with rating 0, count 0, no comments and the id the driver
    generated, which no stored review had. *)
Lemma add_review_created (st : db) (data : json) (b : body) (st1 : db) :
  add_review st data = (Response b 201, st1) ->
  exists rv,
    reviews_collection st1 = reviews_collection st ++ [rv] /\
    users_collection st1 = users_collection st /\
    (oids st1 = oids st /\ drawn st1 = S (drawn st)) /\
    Review._id rv = next_oid st /\
    Review.rating rv = NInt 0 /\ Review.rating_count rv = 0 /\
    Review.comments rv = [] /\
    Forall (fun x => Review._id x <> next_oid st) (reviews_collection st).
Proof.
  unfold add_review, py_index.
  repeat (match goal with
          | |- context [@lookup _ _ _ _ ?k ?d] => destruct (@lookup _ _ _ _ k d); simpl
          end; try discriminate).
  destruct (encode _); simpl; try discriminate.
  match goal with
  | |- context [Mongo.insert_one ?f ?d ?c] =>
      destruct (Mongo.insert_one f d c) as [reviews | e] eqn:Hins
  end; [| discriminate].
  apply insert_one_inv in Hins as [-> Hfresh].
  intros H. injection H as _ <-. eexists. simpl.
  repeat split; try reflexivity. exact Hfresh.
Qed.

(* ===================================================================== *)
(** ** Facts about collections *)
(* ===================================================================== *)

Section CollectionFacts.
Context {A : Type}.
Implicit Types (p q : A -> bool) (f : A -> A) (c : list A).

Lemma update_one_no_match p f c :
  Mongo.find_one p c = None -> Mongo.update_one p f c = c.
Proof.
  unfold Mongo.find_one. induction c as [| d c IH]; simpl; [reflexivity |].
  destruct (p d); [discriminate |]. intros H. rewrite IH; auto.
Qed.

Lemma find_one_update_one p f c d :
  (forall x, p (f x) = p x) ->
  Mongo.find_one p c = Some d ->
  Mongo.find_one p (Mongo.update_one p f c) = Some (f d).
Proof.
  intros Hf. unfold Mongo.find_one. induction c as [| x c IH]; simpl; [discriminate |].
  destruct (p x) eqn:E.
  - intros H. injection H as <-. simpl. rewrite Hf, E. reflexivity.
  - intros H. simpl. rewrite E. auto.
Qed.

Lemma find_one_update_one_other p q f c :
  (forall x, q (f x) = q x) ->
  (forall x, p x = true -> q x = false) ->
  Mongo.find_one q (Mongo.update_one p f c) = Mongo.find_one q c.
Proof.
  intros Hf Hpq. unfold Mongo.find_one. induction c as [| x c IH]; simpl; [reflexivity |].
  destruct (p x) eqn:E; simpl.
  - rewrite Hf, (Hpq x E). reflexivity.
  - destruct (q x); auto.
Qed.

Lemma map_update_one {B : Type} (g : A -> B) p f c :
  (forall x, g (f x) = g x) ->
  map g (Mongo.update_one p f c) = map g c.
Proof.
  intros Hg. induction c as [| x c IH]; simpl; [reflexivity |].
  destruct (p x); simpl; rewrite ?Hg, ?IH; reflexivity.
Qed.

Lemma find_one_app_l p c c' d :
  Mongo.find_one p c = Some d -> Mongo.find_one p (c ++ c') = Some d.
Proof.
  unfold Mongo.find_one. induction c as [| x c IH]; simpl; [discriminate |].
  destruct (p x); auto.
Qed.

Lemma find_one_app_r p c c' :
  Mongo.find_one p c = None ->
  Mongo.find_one p (c ++ c') = Mongo.find_one p c'.
Proof.
  unfold Mongo.find_one. induction c as [| x c IH]; simpl; [reflexivity |].
  destruct (p x); [discriminate | auto].
Qed.

Lemma find_one_none p c :
  Mongo.find_one p c = None <-> Forall (fun x => p x = false) c.
Proof.
  unfold Mongo.find_one. induction c as [| x c IH]; simpl.
  - split; intros; constructor.
  - destruct (p x) eqn:E; split; intros H.
    + discriminate.
    + inversion H; congruence.
    + constructor; [assumption | apply IH, H].
    + inversion H; subst. apply IH. assumption.
Qed.

End CollectionFacts.

Lemma by_id_eq (i : oid) (r : Review.t) :
  Mongo.by_id i r = true <-> Review._id r = i.
Proof. unfold Mongo.by_id. apply N.eqb_eq. Qed.

Lemma by_id_set_rating (i : oid) (a : num) (c : Z) (r : Review.t) :
  Mongo.by_id i (Review.set_rating a c r) = Mongo.by_id i r.
Proof. reflexivity. Qed.

Lemma by_id_push_comment (i : oid) (c : comment_doc) (r : Review.t) :
  Mongo.by_id i (Review.push_comment c r) = Mongo.by_id i r.
Proof. reflexivity. Qed.

Lemma by_id_other (i j : oid) (r : Review.t) :
  i <> j -> Mongo.by_id i r = true -> Mongo.by_id j r = false.
Proof.
  unfold Mongo.by_id. intros Hne H. apply N.eqb_eq in H. apply N.eqb_neq. congruence.
Qed.

(** An id that [ObjectId] accepts is a non-empty string, hence truthy. *)
Lemma ObjectId_truthy (v : pyval) (i : oid) :
  ObjectId v = Ok i -> py_not v = false.
Proof.
  destruct v as [| b | z | f | s | l]; simpl; try discriminate.
  destruct s; simpl; [discriminate | reflexivity].
Qed.

(* ===================================================================== *)
(** ** add_comment *)
(* ===================================================================== *)

(** What a 200 of [add_comment] means for the store: a [$push] on the review
    with the id of the request, if there is one. *)
Lemma add_comment_200 (st : db) (e : string) (data : json) (b : body) (st1 : db) :
  add_comment st (Some e) data = (Response b 200, st1) ->
  exists i,
    ObjectId (py_get data "reviewId") = Ok i /\
    st1 = mkdb (users_collection st)
               (Mongo.update_one (Mongo.by_id i)
                  (Review.push_comment
                     {| user_email := e; comment := py_get data "comment" |})
                  (reviews_collection st))
               (oids st) (drawn st).
Proof.
  unfold add_comment.
  destruct (py_not (py_get data "reviewId") || py_not (py_get data "comment"));
    [discriminate |].
  destruct (ObjectId (py_get data "reviewId")) as [i | err]; simpl; [| discriminate].
  destruct (encode [py_get data "comment"]); simpl; [| discriminate].
  intros H. injection H as _ <-. exists i. split; reflexivity.
Qed.

Lemma comments_of_push (st : db) (i j : oid) (c : comment_doc) :
  comments_of (mkdb (users_collection st)
                 (Mongo.update_one (Mongo.by_id i) (Review.push_comment c)
                    (reviews_collection st))
                 (oids st) (drawn st)) j
  = if (i =? j)%N then (fun cs => cs ++ [c]) <$> comments_of st j
    else comments_of st j.
Proof.
  unfold comments_of. simpl reviews_collection.
  destruct (i =? j)%N eqn:E.
  - apply N.eqb_eq in E. subst j.
    destruct (Mongo.find_one (Mongo.by_id i) (reviews_collection st)) as [rv |] eqn:F.
    + rewrite (find_one_update_one _ _ _ rv (by_id_push_comment i c) F). reflexivity.
    + rewrite (update_one_no_match _ _ _ F), F. reflexivity.
  - apply N.eqb_neq in E.
    rewrite find_one_update_one_other; [reflexivity | apply by_id_push_comment |].
    intros x. apply by_id_other. exact E.
Qed.

(** C9. Two successive successful [add_comment] requests on the same review
    leave its comment list as it was, followed by the first comment and then
    the second; and the comments any review had before are still there, in
    place, as a prefix of its list. *)
Theorem add_comment_appends_in_order
    (st st1 st2 : db) (e1 e2 : string) (d1 d2 : json) (b1 b2 : body)
    (i : oid) (cs : list comment_doc) :
  add_comment st (Some e1) d1 = (Response b1 200, st1) ->
  add_comment st1 (Some e2) d2 = (Response b2 200, st2) ->
  ObjectId (py_get d1 "reviewId") = Ok i ->
  ObjectId (py_get d2 "reviewId") = Ok i ->
  comments_of st i = Some cs ->
  comments_of st2 i
  = Some (cs ++ [ {| user_email := e1; comment := py_get d1 "comment" |};
                  {| user_email := e2; comment := py_get d2 "comment" |} ]) /\
  forall j old, comments_of st j = Some old ->
    exists new, comments_of st2 j = Some (old ++ new).
Proof.
  intros H1 H2 Hi1 Hi2 Hcs.
  destruct (add_comment_200 _ _ _ _ _ H1) as (i1 & Ei1 & ->).
  destruct (add_comment_200 _ _ _ _ _ H2) as (i2 & Ei2 & ->).
  simpl users_collection in *. simpl next_oid in *.
  assert (i1 = i) as -> by congruence. assert (i2 = i) as -> by congruence.
  set (c1 := {| user_email := e1; comment := py_get d1 "comment" |}).
  set (c2 := {| user_email := e2; comment := py_get d2 "comment" |}).
  set (s1 := mkdb (users_collection st)
               (Mongo.update_one (Mongo.by_id i) (Review.push_comment c1)
                  (reviews_collection st)) (oids st) (drawn st)).
  assert (Hstep2 : forall j, comments_of
             (mkdb (users_collection st)
                (Mongo.update_one (Mongo.by_id i) (Review.push_comment c2)
                   (reviews_collection s1)) (oids st) (drawn st)) j
           = if (i =? j)%N then (fun cs => cs ++ [c2]) <$> comments_of s1 j
             else comments_of s1 j).
  { intros j. apply (comments_of_push s1 i j c2). }
  assert (Hstep1 : forall j, comments_of s1 j
           = if (i =? j)%N then (fun cs => cs ++ [c1]) <$> comments_of st j
             else comments_of st j).
  { intros j. apply (comments_of_push st i j c1). }
  split.
  - rewrite Hstep2, Hstep1, N.eqb_refl, Hcs. simpl.
    rewrite <- app_assoc. reflexivity.
  - intros j old Hold. rewrite Hstep2, Hstep1, Hold.
    destruct (i =? j)%N; simpl.
    + exists [c1; c2]. rewrite <- app_assoc. reflexivity.
    + exists []. rewrite app_nil_r. reflexivity.
Qed.

Lemma add_comment_appends_in_order_witness :
  let d1 := comment_request id0 (VStr "First") in
  let d2 := comment_request id0 (VStr "Second") in
  let st1 := snd (add_comment one_review (Some "ann@example.org") d1) in
  let st2 := snd (add_comment st1 (Some "bob@example.org") d2) in
  comments_of st2 0%N
  = Some ([] ++ [ {| user_email := "ann@example.org"; comment := py_get d1 "comment" |};
                  {| user_email := "bob@example.org"; comment := py_get d2 "comment" |} ]) /\
  forall j old, comments_of one_review j = Some old ->
    exists new, comments_of st2 j = Some (old ++ new).
Proof.
  intros d1 d2 st1 st2.
  apply (add_comment_appends_in_order one_review st1 st2
           "ann@example.org" "bob@example.org" d1 d2
           (Message "Comment added successfully!")
           (Message "Comment added successfully!") 0%N []);
    reflexivity.
Defined.

(** A comment for an id no review has: nothing to push to, and still the
    answer is the 200 of a stored comment. *)
Lemma add_comment_no_such_review (st : db) (e : string) (data : json) (i : oid) :
  ObjectId (py_get data "reviewId") = Ok i ->
  py_not (py_get data "comment") = false ->
  bson_ok (py_get data "comment") = true ->
  Mongo.find_one (Mongo.by_id i) (reviews_collection st) = None ->
  add_comment st (Some e) data
  = (Response (Message "Comment added successfully!") 200, st).
Proof.
  intros Hi Hc Hok Hnone. unfold add_comment.
  rewrite (ObjectId_truthy _ _ Hi), Hc, Hi. simpl.
  unfold encode. simpl forallb. rewrite Hok. simpl.
  rewrite (update_one_no_match _ _ _ Hnone). destruct st; reflexivity.
Qed.

(** A missing (or empty) review id or comment text is a 400. *)
Lemma add_comment_missing_field (st : db) (e : string) (data : json) :
  py_not (py_get data "reviewId") = true \/ py_not (py_get data "comment") = true ->
  add_comment st (Some e) data
  = (Response (Error "Review ID and comment are required.") 400, st).
Proof.
  intros H. unfold add_comment.
  destruct H as [-> | ->]; rewrite ?orb_true_r; reflexivity.
Qed.

(** C3. The code at the input that breaks the claim: an authenticated
    comment for the well-formed id 000000000000000000000007, which no review
    of the store has, is answered 200 "Comment added successfully!" and not
    404; the store is unchanged, so indeed no comment is stored. *)
Theorem add_comment_unknown_review_is_200 :
  add_comment one_review (Some "ann@example.org")
    (comment_request id7 (VStr "Nice"))
  = (Response (Message "Comment added successfully!") 200, one_review).
Proof. vm_compute. reflexivity. Qed.

(* ===================================================================== *)
(** ** update_rating: the review lookup *)
(* ===================================================================== *)

(** [update_rating] up to its write, for an int rating in 1..5 and an id
    that parses: the lookup, then the arithmetic. *)
Lemma update_rating_read_in_range
    (st : db) (data : json) (review_id : pyval) (r : Z) (i : oid) :
  data !! "reviewId" = Some review_id ->
  data !! "rating" = Some (VInt r) ->
  1 <= r <= 5 ->
  ObjectId review_id = Ok i ->
  update_rating_read st data =
    match Mongo.find_one (Mongo.by_id i) (reviews_collection st) with
    | None => Ok (inl (Response (Error "Review not found.") 404))
    | Some review =>
        xk ← fold_rating (Review.rating review) (Review.rating_count review) (NInt r);
        Ok (inr (i, fst xk, snd xk))
    end.
Proof.
  intros Hid Hr Hrange Hi. unfold update_rating_read.
  rewrite (py_get_lookup _ _ _ Hid), (py_get_lookup _ _ _ Hr).
  rewrite (ObjectId_truthy _ _ Hi). simpl py_not.
  replace (r =? 0) with false by (symmetry; apply Z.eqb_neq; lia).
  unfold int_le_py, py_le_int. simpl to_num. cbv beta iota.
  rewrite !num_le_int.
  replace (1 <=? r) with true by (symmetry; apply Z.leb_le; lia).
  replace (r <=? 5) with true by (symmetry; apply Z.leb_le; lia).
  simpl. rewrite Hi. simpl.
  destruct (Mongo.find_one (Mongo.by_id i) (reviews_collection st)) as [rv |];
    [| reflexivity].
  unfold fold_rating.
  destruct (py_mul _ _) as [w |]; simpl; [| reflexivity].
  destruct (py_add _ _) as [t |]; simpl; [| reflexivity].
  destruct (py_truediv _ _) as [a |]; simpl; reflexivity.
Qed.

(** X17. An accepted rating for an id that parses and that no review has:
    404 "Review not found.", store unchanged. *)
Lemma update_rating_no_such_review
    (st : db) (data : json) (review_id : pyval) (r : Z) (i : oid) :
  data !! "reviewId" = Some review_id ->
  data !! "rating" = Some (VInt r) ->
  1 <= r <= 5 ->
  ObjectId review_id = Ok i ->
  Mongo.find_one (Mongo.by_id i) (reviews_collection st) = None ->
  update_rating st data = (Response (Error "Review not found.") 404, st).
Proof.
  intros Hid Hr Hrange Hi Hnone. unfold update_rating.
  rewrite (update_rating_read_in_range st data review_id r i Hid Hr Hrange Hi), Hnone.
  reflexivity.
Qed.

(** C8. The code at the input that breaks the claim: the rating 3 for the
    review id "abc", which resolves to no review.  [ObjectId("abc")] raises
    InvalidId before the lookup, the exception leaves the handler (status
    500) and the 404 of "Review not found." is never reached; the store is
    unchanged. *)
Theorem update_rating_malformed_id_raises :
  update_rating one_review (rating_request (VStr "abc") (VInt 3))
  = (Raised InvalidId, one_review) /\
  status_of (fst (update_rating one_review (rating_request (VStr "abc") (VInt 3))))
  = 500.
Proof. split; vm_compute; reflexivity. Qed.

(* ===================================================================== *)
(** ** Sorting a cursor *)
(* ===================================================================== *)

Section SortFacts.
Context {A : Type}.
Variable before : A -> A -> bool.

Lemma insert_sorted_perm (x : A) (l : list A) :
  Permutation (Mongo.insert_sorted before x l) (x :: l).
Proof.
  induction l as [| y l IH]; simpl; [reflexivity |].
  destruct (before x y); [reflexivity |].
  rewrite IH. apply perm_swap.
Qed.

Lemma sort_perm (l : list A) : Permutation (Mongo.sort before l) l.
Proof.
  unfold Mongo.sort. induction l as [| x l IH]; simpl; [reflexivity |].
  rewrite insert_sorted_perm. constructor. exact IH.
Qed.

Hypothesis before_total : forall a b, before a b = false -> before b a = true.

Lemma insert_sorted_hd (x : A) (l : list A) (z : A) :
  before z x = true ->
  HdRel (fun a b => before a b = true) z l ->
  HdRel (fun a b => before a b = true) z (Mongo.insert_sorted before x l).
Proof.
  intros Hzx Hl. destruct l as [| y l]; simpl.
  - constructor. exact Hzx.
  - destruct (before x y); constructor; [exact Hzx |].
    inversion Hl; assumption.
Qed.

Lemma insert_sorted_sorted (x : A) (l : list A) :
  Sorted (fun a b => before a b = true) l ->
  Sorted (fun a b => before a b = true) (Mongo.insert_sorted before x l).
Proof.
  induction l as [| y l IH]; simpl; intros Hs.
  - repeat constructor.
  - destruct (before x y) eqn:E.
    + constructor; [exact Hs | constructor; exact E].
    + inversion Hs as [| ? ? Hs' Hhd]; subst.
      constructor; [apply IH; exact Hs' |].
      apply insert_sorted_hd; [apply before_total; exact E | exact Hhd].
Qed.

Lemma sort_sorted (l : list A) :
  Sorted (fun a b => before a b = true) (Mongo.sort before l).
Proof.
  unfold Mongo.sort. induction l as [| x l IH]; simpl.
  - constructor.
  - apply insert_sorted_sorted. exact IH.
Qed.

End SortFacts.

(** Inserting an element that every element of the list comes before. *)
Lemma insert_sorted_last {A : Type} (before : A -> A -> bool) (x : A) (l : list A) :
  Forall (fun y => before x y = false) l ->
  Mongo.insert_sorted before x l = l ++ [x].
Proof.
  induction 1 as [| y l Hy _ IH]; simpl; [reflexivity |].
  rewrite Hy, IH. reflexivity.
Qed.

(** Sorting by descending id a list whose ids grow reverses it. *)
Lemma sort_id_desc_rev (l : list Review.t) :
  StronglySorted N.lt (map Review._id l) ->
  Mongo.sort Mongo.id_desc l = rev l.
Proof.
  unfold Mongo.sort. induction l as [| x l IH]; simpl; [reflexivity |].
  intros Hs. inversion Hs as [| ? ? Hs' Hall]; subst.
  rewrite (IH Hs'). apply insert_sorted_last.
  apply Forall_rev. rewrite Forall_map in Hall.
  eapply Forall_impl; [exact Hall |]. simpl.
  intros y Hy. unfold Mongo.id_desc. apply N.leb_gt. exact Hy.
Qed.

Lemma filter_ids_sorted (p : Review.t -> bool) (l : list Review.t) :
  StronglySorted N.lt (map Review._id l) ->
  StronglySorted N.lt (map Review._id (List.filter p l)).
Proof.
  induction l as [| x l IH]; simpl; intros Hs; [constructor |].
  inversion Hs as [| ? ? Hs' Hall]; subst.
  destruct (p x); simpl; [| auto].
  constructor; [auto |].
  rewrite Forall_map in *. rewrite List.Forall_forall in *.
  intros y Hy. apply Hall. apply filter_In in Hy. tauto.
Qed.

Lemma filter_sublist {A : Type} (p : A -> bool) (l : list A) :
  sublist (List.filter p l) l.
Proof.
  induction l as [| x l IH]; simpl; [constructor |].
  destruct (p x); [apply sublist_skip | apply sublist_cons]; exact IH.
Qed.

(* ===================================================================== *)
(** ** get_reviews: filters *)
(* ===================================================================== *)

Lemma bson_eq_str (x : pyval) (s : string) :
  bson_eq x (VStr s) = true <-> x = VStr s.
Proof.
  destruct x as [| b | z | f | t | l]; simpl; split; intros H;
    try discriminate; try (destruct l; discriminate).
  - apply String.eqb_eq in H. congruence.
  - injection H as ->. apply String.eqb_refl.
Qed.

Lemma eq_match_str (x : pyval) (s : string) :
  eq_match x (VStr s) = true <-> field_is x s.
Proof.
  unfold eq_match, field_is. rewrite orb_true_iff, bson_eq_str.
  split; intros [H | H]; auto.
  - destruct x as [| b | z | f | t | l]; try discriminate.
    right. exists l. split; [reflexivity |].
    apply existsb_exists in H as (y & Hy & Hyq).
    apply bson_eq_str in Hyq. congruence.
  - destruct H as (l & -> & Hin). right.
    apply existsb_exists. exists (VStr s). split; [exact Hin |].
    apply bson_eq_str. reflexivity.
Qed.

Lemma matches_add_filter (k : string) (v : option string)
    (q : list (string * pyval)) (r : Review.t) :
  Mongo.matches (add_filter k v q) r = Mongo.matches q r && passes k v r.
Proof.
  unfold add_filter, passes, Mongo.matches.
  destruct v as [s |]; [| rewrite andb_true_r; reflexivity].
  destruct (String.eqb s ""); [rewrite andb_true_r; reflexivity |].
  rewrite forallb_app. simpl. rewrite andb_true_r. reflexivity.
Qed.

Lemma matches_query_of (args : gmap string string) (r : Review.t) :
  Mongo.matches (query_of args) r
  = passes "location" (args !! "location") r
    && passes "purpose" (args !! "purpose") r
    && passes "budget" (args !! "budget") r
    && passes "transport" (args !! "transport") r.
Proof. unfold query_of. rewrite !matches_add_filter. reflexivity. Qed.

Lemma passes_spec (k : string) (v : option string) (r : Review.t) :
  passes k v r = true <->
  forall s, v = Some s -> s <> "" ->
    exists x, Review.field k r = Some x /\ field_is x s.
Proof.
  unfold passes. destruct v as [s |].
  - destruct (String.eqb s "") eqn:E.
    + apply String.eqb_eq in E. split; [| reflexivity].
      intros _ s' Hs' Hne. congruence.
    + apply String.eqb_neq in E. split.
      * intros H s' Hs' _. injection Hs' as <-.
        destruct (Review.field k r) as [x |]; [| discriminate].
        exists x. split; [reflexivity | apply eq_match_str, H].
      * intros H. destruct (H s eq_refl E) as (x & -> & Hx).
        apply eq_match_str, Hx.
  - split; [intros _ s H; discriminate | reflexivity].
Qed.

Lemma matches_selected (args : gmap string string) (r : Review.t) :
  Mongo.matches (query_of args) r = true <-> selected args r.
Proof.
  rewrite matches_query_of, !andb_true_iff, !passes_spec. unfold selected.
  split.
  - intros [[[H1 H2] H3] H4] k v Hk Hv Hne. simpl in Hk.
    destruct Hk as [<- | [<- | [<- | [<- | []]]]]; eauto.
  - intros H. repeat split; intros s Hs Hne;
      (eapply H; [simpl; tauto | exact Hs | exact Hne]).
Qed.

Lemma get_reviews_eq (st : db) (args : gmap string string) :
  get_reviews st args
  = (Response
       (Reviews (map (fun r => (oid_str (Review._id r), r))
                     (order_by (args !! "sort") (matching st args)))) 200,
     st).
Proof. reflexivity. Qed.

Lemma returned_get_reviews (st : db) (args : gmap string string) :
  returned (fst (get_reviews st args))
  = order_by (args !! "sort") (matching st args).
Proof.
  rewrite get_reviews_eq. simpl. rewrite map_map. simpl. apply map_id.
Qed.

Lemma order_by_perm (sort : option string) (l : list Review.t) :
  Permutation (order_by sort l) l.
Proof.
  unfold order_by. destruct sort as [s |]; [| reflexivity].
  destruct (String.eqb s "newest"); [apply sort_perm |].
  destruct (String.eqb s "rating"); [apply sort_perm | reflexivity].
Qed.

Lemma matching_all (st : db) (args : gmap string string) :
  no_filters args -> matching st args = reviews_collection st.
Proof.
  intros Hno. unfold matching, Mongo.find.
  assert (Hq : query_of args = []).
  { unfold query_of, add_filter.
    destruct (Hno "location") as [-> | ->]; [simpl; tauto | |];
    destruct (Hno "purpose") as [-> | ->]; try (simpl; tauto);
    destruct (Hno "budget") as [-> | ->]; try (simpl; tauto);
    destruct (Hno "transport") as [-> | ->]; try (simpl; tauto);
    reflexivity. }
  rewrite Hq. induction (reviews_collection st) as [| x l IH]; simpl;
    [reflexivity | rewrite IH; reflexivity].
Qed.

(** C6 as the code has it.  [get_reviews] answers 200 with, each once, the
    stored reviews that pass every filter among location, purpose, budget and
    transport given with a non-empty value.  A review passes a filter when
    its field is the given string, or an array holding that string.  A
    filter that is absent or given empty restricts nothing: with no filter
    every stored review is returned.  The store is unchanged. *)
Theorem get_reviews_filters (st : db) (args : gmap string string) :
  exists l,
    get_reviews st args = (Response (Reviews l) 200, st) /\
    (forall r, In r (map snd l) <-> In r (reviews_collection st) /\ selected args r) /\
    map snd l ⊆+ reviews_collection st /\
    (no_filters args -> Permutation (map snd l) (reviews_collection st)).
Proof.
  eexists. split; [apply get_reviews_eq |].
  rewrite map_map. simpl. rewrite map_id.
  pose proof (order_by_perm (args !! "sort") (matching st args)) as Hp.
  split; [| split].
  - intros r. rewrite <- matches_selected.
    split.
    + intros H. apply (Permutation_in _ Hp) in H.
      unfold matching, Mongo.find in H. apply filter_In in H. exact H.
    + intros H. apply (Permutation_in _ (Permutation_sym Hp)).
      unfold matching, Mongo.find. apply filter_In. exact H.
  - rewrite Hp. apply sublist_submseteq, filter_sublist.
  - intros Hno. rewrite Hp, (matching_all st args Hno). reflexivity.
Qed.

Lemma get_reviews_filters_witness :
  Permutation (returned (fst (get_reviews three_reviews ∅)))
              (reviews_collection three_reviews).
Proof.
  destruct (get_reviews_filters three_reviews ∅) as (l & E & _ & _ & H).
  rewrite E. simpl. apply H. intros k _. left. reflexivity.
Defined.

(** C6, the claim as stated fails: the filter location= (the empty string) is
    supplied, and the review returned has the location "Paris", not "". *)
Lemma get_reviews_empty_filter_counterexample :
  exists r,
    In r (returned (fst (get_reviews one_review {["location" := ""]}))) /\
    Review.location r = VStr "Paris" /\
    Review.location r <> VStr "".
Proof.
  eexists. split; [vm_compute; left; reflexivity |].
  split; [reflexivity | discriminate].
Qed.

(** An array field matches on its elements: the filter location=Paris also
    returns the review whose location is ["Paris", "Lyon"]. *)
Lemma get_reviews_array_field :
  map Review.location
      (returned (fst (get_reviews three_reviews {["location" := "Paris"]})))
  = [VStr "Paris"; VList [VStr "Paris"; VStr "Lyon"]].
Proof. vm_compute. reflexivity. Qed.

(* ===================================================================== *)
(** ** get_reviews: sort modes *)
(* ===================================================================== *)

Lemma rated_ge_trans (a b c : Review.t) :
  rated_ge a b -> rated_ge b c -> rated_ge a c.
Proof.
  unfold rated_ge. intros Hab Hbc. exact (key_leb_trans _ _ _ Hbc Hab).
Qed.

Lemma id_ge_trans (a b c : Review.t) : id_ge a b -> id_ge b c -> id_ge a c.
Proof. unfold id_ge. lia. Qed.

Lemma sort_rating_desc_sorted (l : list Review.t) :
  StronglySorted rated_ge (Mongo.sort Mongo.rating_desc l).
Proof.
  apply Sorted_StronglySorted; [exact rated_ge_trans |].
  apply (sort_sorted Mongo.rating_desc).
  intros a b. unfold Mongo.rating_desc. apply key_leb_total.
Qed.

Lemma sort_id_desc_sorted (l : list Review.t) :
  StronglySorted id_ge (Mongo.sort Mongo.id_desc l).
Proof.
  apply Sorted_StronglySorted; [exact id_ge_trans |].
  assert (H : Sorted (fun a b => Mongo.id_desc a b = true)
                (Mongo.sort Mongo.id_desc l)).
  { apply (sort_sorted Mongo.id_desc).
    intros a b. unfold Mongo.id_desc. rewrite N.leb_gt, N.leb_le. lia. }
  eapply Sorted_ind with (P := Sorted id_ge);
    [constructor | | exact H].
  intros a l' _ IH Hhd. constructor; [exact IH |].
  destruct Hhd as [| b l'' Hab]; constructor.
  unfold id_ge. unfold Mongo.id_desc in Hab. apply N.leb_le. exact Hab.
Qed.

Lemma matching_pinned (st : db) (args : gmap string string) :
  sublist (matching st args) (reviews_collection st) /\
  forall r, In r (matching st args) <->
            In r (reviews_collection st) /\ selected args r.
Proof.
  split; [apply filter_sublist |].
  intros r. rewrite <- matches_selected.
  unfold matching, Mongo.find. apply filter_In.
Qed.

(** C7 as the code has it.  The matching reviews are the stored reviews that
    pass the filters of the query, in creation order.  With sort=rating the
    answer is a permutation of them in which each review is rated at least as
    high as every later one.  With sort=newest the answer is a permutation of
    them in which each review has an [_id] at least as large as every later
    one; it is their reverse, the reverse creation order, in a store whose
    ids grew with creation. *)
Theorem get_reviews_sorted (st : db) (by_rating by_newest : gmap string string) :
  by_rating !! "sort" = Some "rating" ->
  by_newest !! "sort" = Some "newest" ->
  let rated := returned (fst (get_reviews st by_rating)) in
  let newest := returned (fst (get_reviews st by_newest)) in
  (Permutation rated (matching st by_rating) /\ StronglySorted rated_ge rated) /\
  (Permutation newest (matching st by_newest) /\ StronglySorted id_ge newest /\
   (ids_grow st -> newest = rev (matching st by_newest))) /\
  (forall args,
     sublist (matching st args) (reviews_collection st) /\
     forall r, In r (matching st args) <->
               In r (reviews_collection st) /\ selected args r).
Proof.
  intros Hr Hn. cbv zeta.
  rewrite !returned_get_reviews, Hr, Hn.
  unfold order_by. simpl.
  split; [split | split; [split; [| split] |]].
  - apply sort_perm.
  - apply sort_rating_desc_sorted.
  - apply sort_perm.
  - apply sort_id_desc_sorted.
  - intros Hgrow. apply sort_id_desc_rev. apply filter_ids_sorted. exact Hgrow.
  - intros args. apply matching_pinned.
Qed.

(** On the sample store, whose ids 0, 1, 2 grew with creation. *)
Lemma get_reviews_sorted_witness :
  (Permutation
     (returned (fst (get_reviews three_reviews {["sort" := "rating"]})))
     (matching three_reviews {["sort" := "rating"]}) /\
   StronglySorted rated_ge
     (returned (fst (get_reviews three_reviews {["sort" := "rating"]})))) /\
  returned (fst (get_reviews three_reviews {["sort" := "newest"]}))
  = rev (matching three_reviews {["sort" := "newest"]}).
Proof.
  destruct (get_reviews_sorted three_reviews {["sort" := "rating"]}
              {["sort" := "newest"]})
    as (Hrated & (_ & _ & Hnewest) & _).
  - reflexivity.
  - reflexivity.
  - split; [exact Hrated |].
    apply Hnewest. unfold ids_grow.
    change (ids_of three_reviews) with [0%N; 1%N; 2%N].
    repeat constructor.
Defined.

(** What the two sort modes give on the sample store, by id. *)
Lemma get_reviews_sorted_sample :
  map Review._id (returned (fst (get_reviews three_reviews {["sort" := "rating"]})))
  = [1%N; 0%N; 2%N] /\
  map Review._id (returned (fst (get_reviews three_reviews {["sort" := "newest"]})))
  = [2%N; 1%N; 0%N].
Proof. split; vm_compute; reflexivity. Qed.

(** C7, the claim as stated fails for sort=newest.  The ids are generated by
    the driver from the second of the clock, five random bytes of the process
    and a counter, so a review created later can have the smaller id: here
    two reviews created within one second through two worker processes.  The
    answer lists them in creation order, not in reverse creation order. *)
Lemma get_reviews_newest_counterexample :
  let first := add_review (new_db two_processes) (review_in (VStr "Paris")) in
  let second := add_review (snd first) (review_in (VStr "Rome")) in
  let newest :=
    returned (fst (get_reviews (snd second) {["sort" := "newest"]})) in
  status_of (fst first) = 201 /\ status_of (fst second) = 201 /\
  map Review.location (reviews_collection (snd second))
  = [VStr "Paris"; VStr "Rome"] /\
  map Review.location newest = [VStr "Paris"; VStr "Rome"] /\
  newest <> rev (reviews_collection (snd second)).
Proof.
  cbv zeta. repeat split; try (vm_compute; reflexivity).
  vm_compute. discriminate.
Qed.

(* ===================================================================== *)
(** ** signup: one user per email *)
(* ===================================================================== *)

Lemma key_eqb_refl (a : Z * Q) : key_eqb a a = true.
Proof. unfold key_eqb. rewrite Z.eqb_refl, Qeq_bool_refl. reflexivity. Qed.

Lemma bson_eq_refl (v : pyval) : bson_eq v v = true.
Proof.
  induction v using pyval_nested_ind; simpl;
    try apply key_eqb_refl; try reflexivity.
  - destruct b; reflexivity.
  - apply String.eqb_refl.
  - induction H as [| x l Hx _ IH]; [reflexivity |].
    rewrite Hx. exact IH.
Qed.

Lemma eq_match_refl (v : pyval) : eq_match v v = true.
Proof. unfold eq_match. rewrite bson_eq_refl. reflexivity. Qed.

Lemma find_one_some {A : Type} (p : A -> bool) (c : list A) (d : A) :
  In d c -> p d = true -> exists d', Mongo.find_one p c = Some d'.
Proof.
  intros Hin Hp. destruct (Mongo.find_one p c) as [d' |] eqn:E; [eauto |].
  apply find_one_none in E. rewrite List.Forall_forall in E.
  specialize (E d Hin). congruence.
Qed.

Lemma NoDup_snoc {A : Type} (l : list A) (x : A) :
  NoDup l -> ~ In x l -> NoDup (l ++ [x]).
Proof.
  intros Hnd Hx. apply NoDup_app. split; [exact Hnd |].
  split; [| apply NoDup_singleton].
  intros y Hy Hyx. apply list_elem_of_singleton in Hyx. subst y.
  apply Hx, list_elem_of_In, Hy.
Qed.

Section Signup.
Variable generate_password_hash : pyval -> res string.
Variable create_access_token : pyval -> res string.

Local Abbreviation signup' := (signup generate_password_hash create_access_token).

(** A signup changes the users only by appending one whose email matched no
    stored user. *)
Lemma signup_users (st : db) (data : json) :
  users_collection (snd (signup' st data)) = users_collection st \/
  (Mongo.find_one (fun u => eq_match (User.email u) (py_get data "email"))
                  (users_collection st) = None /\
   exists u, User.email u = py_get data "email" /\
             users_collection (snd (signup' st data)) = users_collection st ++ [u]).
Proof.
  unfold signup.
  destruct (py_not (py_get data "name") || py_not (py_get data "email")
            || py_not (py_get data "password")); [left; reflexivity |].
  destruct (encode [py_get data "email"]); [| left; reflexivity].
  destruct (Mongo.find_one _ (users_collection st)) as [u |] eqn:F;
    [left; reflexivity |].
  destruct (generate_password_hash _) as [h |]; simpl; [| left; reflexivity].
  destruct (encode _); simpl; [| left; reflexivity].
  match goal with
  | |- context [Mongo.insert_one ?f ?d ?c] =>
      destruct (Mongo.insert_one f d c) as [users | e] eqn:Hins
  end; [| left; reflexivity].
  apply insert_one_inv in Hins as [-> _].
  right. split; [reflexivity |].
  eexists (User.mk _ _ _ _ _ _).
  destruct (create_access_token _); simpl; split; reflexivity.
Qed.

(** Every signup keeps the emails of the stored users pairwise distinct. *)
Lemma signup_emails_unique (st : db) (data : json) :
  NoDup (emails st) -> NoDup (emails (snd (signup' st data))).
Proof.
  intros Hnd. unfold emails.
  destruct (signup_users st data) as [-> | (Hnone & u & Hu & ->)]; [exact Hnd |].
  rewrite map_app. simpl. apply NoDup_snoc; [exact Hnd |].
  rewrite Hu. intros Hin. apply in_map_iff in Hin as (u' & Hu' & Hin').
  apply find_one_none in Hnone. rewrite List.Forall_forall in Hnone.
  specialize (Hnone u' Hin'). simpl in Hnone.
  rewrite Hu', eq_match_refl in Hnone. discriminate.
Qed.

(** C5 as the code has it.  A signup whose email is the email of a stored
    user never inserts a user.  It is answered 409 when name and password
    are present, and 400 (missing fields, checked first) when one of them is
    not.  And every signup, whatever the request, keeps the stored emails
    pairwise distinct. *)
Theorem signup_existing_email (st : db) (data : json) (u : User.t) :
  users_ok st ->
  In u (users_collection st) ->
  User.email u = py_get data "email" ->
  snd (signup' st data) = st /\
  status_of (fst (signup' st data))
  = (if py_not (py_get data "name") || py_not (py_get data "password")
     then 400 else 409) /\
  forall data', NoDup (emails st) -> NoDup (emails (snd (signup' st data'))).
Proof.
  intros Hok Hin Hemail.
  assert (Hu : py_not (py_get data "email") = false /\
               bson_ok (py_get data "email") = true).
  { unfold users_ok in Hok. rewrite List.Forall_forall in Hok.
    rewrite <- Hemail. apply Hok. unfold emails. apply in_map. exact Hin. }
  destruct Hu as [Htruthy Hencodable].
  assert (Hfind : exists d, Mongo.find_one
                    (fun u => eq_match (User.email u) (py_get data "email"))
                    (users_collection st) = Some d).
  { apply (find_one_some _ _ u Hin). rewrite Hemail. apply eq_match_refl. }
  destruct Hfind as [d Hd].
  split; [| split].
  - unfold signup. rewrite Htruthy, orb_false_r.
    destruct (py_not (py_get data "name") || py_not (py_get data "password"));
      [reflexivity |].
    unfold encode. simpl forallb. rewrite Hencodable. simpl. rewrite Hd. reflexivity.
  - unfold signup. rewrite Htruthy, orb_false_r.
    destruct (py_not (py_get data "name") || py_not (py_get data "password"));
      [reflexivity |].
    unfold encode. simpl forallb. rewrite Hencodable. simpl. rewrite Hd. reflexivity.
  - intros data'. apply signup_emails_unique.
Qed.

(** [users_ok] holds of every store a signup leaves. *)
Lemma signup_users_ok (st : db) (data : json) :
  users_ok st -> users_ok (snd (signup' st data)).
Proof.
  unfold users_ok, emails, signup. intros Hok.
  destruct (py_not (py_get data "name")) eqn:E1; simpl; [exact Hok |].
  destruct (py_not (py_get data "email")) eqn:E2; simpl; [exact Hok |].
  destruct (py_not (py_get data "password")) eqn:E3; simpl; [exact Hok |].
  unfold encode at 1. simpl forallb.
  destruct (bson_ok (py_get data "email")) eqn:E4; simpl; [| exact Hok].
  destruct (Mongo.find_one _ _); [exact Hok |].
  destruct (generate_password_hash _) as [hashed |]; simpl; [| exact Hok].
  destruct (encode _); simpl; [| exact Hok].
  match goal with
  | |- context [Mongo.insert_one ?f ?d ?c] =>
      destruct (Mongo.insert_one f d c) as [users | e] eqn:Hins
  end; [| exact Hok].
  apply insert_one_inv in Hins as [-> _].
  assert (Hnew : Forall (fun e => py_not e = false /\ bson_ok e = true)
                   (map User.email
                      (users_collection st ++
                       [User.mk (next_oid st) (py_get data "name")
                          (py_get data "email") hashed (py_get data "address")
                          (py_get data "phone")]))).
  { rewrite map_app. apply Forall_app. split; [exact Hok |].
    constructor; [| constructor]. simpl. split; assumption. }
  destruct (create_access_token _); simpl; exact Hnew.
Qed.

End Signup.

Lemma signup_existing_email_witness :
  snd (signup hash_stub token_stub one_user sample_user) = one_user /\
  status_of (fst (signup hash_stub token_stub one_user sample_user))
  = (if py_not (py_get sample_user "name") || py_not (py_get sample_user "password")
     then 400 else 409) /\
  forall data', NoDup (emails one_user) ->
    NoDup (emails (snd (signup hash_stub token_stub one_user data'))).
Proof.
  apply (signup_existing_email hash_stub token_stub one_user sample_user
           (User.mk 0%N (VStr "Ann") (VStr "ann@example.org") "$2b$12$hash"
                    VNone VNone)).
  - unfold users_ok.
    change (emails one_user) with [VStr "ann@example.org"].
    repeat constructor.
  - left. reflexivity.
  - reflexivity.
Defined.

(** C5, the claim as stated fails: the email of the request is the email of
    the stored user, the password is missing, and the answer is 400, not
    409. *)
Lemma signup_existing_email_counterexample :
  In (VStr "ann@example.org") (emails one_user) /\
  signup hash_stub token_stub one_user {["email" := VStr "ann@example.org"]}
  = (Response (Error "Missing required fields") 400, one_user).
Proof. split; [vm_compute; left; reflexivity | vm_compute; reflexivity]. Qed.

(* ===================================================================== *)
(** ** update_rating: the running mean *)
(* ===================================================================== *)

Lemma float_of_int_small (z : Z) :
  Z.abs z < 2 ^ 63 ->
  float_of_int z = Ok (binary_normalize prec emax z 0 false).
Proof.
  intros Hz. unfold float_of_int.
  destruct (Z.leb_spec float_overflow (Z.abs z)) as [Hge | Hlt]; [| reflexivity].
  exfalso. assert (H : 2 ^ 63 < float_overflow) by reflexivity.
  apply (Z.lt_irrefl (Z.abs z)).
  eapply Z.lt_le_trans; [exact Hz |].
  eapply Z.le_trans; [apply Z.lt_le_incl, H | exact Hge].
Qed.

Lemma fold_rating_count (x : num) (k : Z) (r : num) (y : num) (k' : Z) :
  fold_rating x k r = Ok (y, k') -> k' = k + 1.
Proof.
  unfold fold_rating.
  destruct (py_mul x (NInt k)) as [w |]; simpl; [| discriminate].
  destruct (py_add w r) as [t |]; simpl; [| discriminate].
  destruct (py_truediv t (NInt (k + 1))) as [a |]; simpl; [| discriminate].
  intros H. injection H as _ <-. reflexivity.
Qed.

(** The first rating of a review: an int over 1, divided exactly. *)
Lemma fold_rating_first (r : Z) :
  1 <= r <= 5 ->
  exists f, fold_rating (NInt 0) 0 (NInt r) = Ok (NFloat f, 1).
Proof.
  intros Hr.
  assert (Hcases : r = 1 \/ r = 2 \/ r = 3 \/ r = 4 \/ r = 5) by lia.
  destruct Hcases as [-> | [-> | [-> | [-> | ->]]]];
    eexists; vm_compute; reflexivity.
Qed.

(** A later rating: the count and the rating become floats, nothing raises. *)
Lemma fold_rating_float (f : spec_float) (k r : Z) :
  0 <= k < 2 ^ 63 - 1 ->
  1 <= r <= 5 ->
  fold_rating (NFloat f) k (NInt r)
  = Ok (NFloat (fdiv (fadd (fmul f (binary_normalize prec emax k 0 false))
                           (binary_normalize prec emax r 0 false))
                     (binary_normalize prec emax (k + 1) 0 false)),
        k + 1).
Proof.
  intros Hk Hr. unfold fold_rating, py_mul, py_add, py_truediv, to_float.
  rewrite (float_of_int_small k) by lia.
  rewrite (float_of_int_small r) by lia.
  rewrite (float_of_int_small (k + 1)) by lia.
  unfold mbind, res_bind. unfold num_is_zero.
  replace (k + 1 =? 0) with false by (symmetry; apply Z.eqb_neq; lia).
  reflexivity.
Qed.

Lemma fold_rating_ok (rv : Review.t) (r : Z) :
  rated_ok rv ->
  Review.rating_count rv < 2 ^ 63 - 1 ->
  1 <= r <= 5 ->
  exists f,
    fold_rating (Review.rating rv) (Review.rating_count rv) (NInt r)
    = Ok (NFloat f, Review.rating_count rv + 1).
Proof.
  intros [Hk [[Hx Hk0] | [f Hx]]] Hmax Hr; rewrite Hx.
  - rewrite Hk0. apply fold_rating_first. exact Hr.
  - eexists. apply fold_rating_float; [lia | exact Hr].
Qed.

Lemma encode_rating (f : spec_float) (k : Z) :
  0 <= k < 2 ^ 63 -> encode [of_num (NFloat f); VInt k] = Ok tt.
Proof.
  intros Hk. unfold encode. simpl.
  replace (- 2 ^ 63 <=? k) with true by (symmetry; apply Z.leb_le; lia).
  replace (k <? 2 ^ 63) with true by (symmetry; apply Z.ltb_lt; lia).
  reflexivity.
Qed.

(** An accepted rating: the review found by [find_one] gets the folded mean
    and the count plus one; the answer is 200. *)
Lemma update_rating_in_range
    (st : db) (data : json) (review_id : pyval) (r : Z) (i : oid) (rv : Review.t) :
  data !! "reviewId" = Some review_id ->
  data !! "rating" = Some (VInt r) ->
  1 <= r <= 5 ->
  ObjectId review_id = Ok i ->
  Mongo.find_one (Mongo.by_id i) (reviews_collection st) = Some rv ->
  rated_ok rv ->
  Review.rating_count rv < 2 ^ 63 - 1 ->
  exists f,
    fold_rating (Review.rating rv) (Review.rating_count rv) (NInt r)
    = Ok (NFloat f, Review.rating_count rv + 1) /\
    update_rating st data
    = (Response (Message "Rating updated successfully!") 200,
       mkdb (users_collection st)
            (Mongo.update_one (Mongo.by_id i)
               (Review.set_rating (NFloat f) (Review.rating_count rv + 1))
               (reviews_collection st))
            (oids st) (drawn st)).
Proof.
  intros Hid Hrt Hr Hi Hfind Hok Hmax.
  destruct (fold_rating_ok rv r Hok Hmax Hr) as [f Hf].
  exists f. split; [exact Hf |].
  unfold update_rating.
  rewrite (update_rating_read_in_range st data review_id r i Hid Hrt Hr Hi), Hfind, Hf.
  unfold mbind, res_bind. cbv beta iota. unfold fst, snd, update_rating_write.
  rewrite encode_rating; [reflexivity |]. destruct Hok as [Hk _]. lia.
Qed.

Lemma set_rating_set_rating (a b : num) (j k : Z) (rv : Review.t) :
  Review.set_rating a j (Review.set_rating b k rv) = Review.set_rating a j rv.
Proof. reflexivity. Qed.

Lemma set_rating_same (rv : Review.t) :
  Review.set_rating (Review.rating rv) (Review.rating_count rv) rv = rv.
Proof. destruct rv; reflexivity. Qed.

(** Submitting [rs] to one review: every answer is the 200, and the review
    ends with the folded mean and its count grown by the number of ratings;
    nothing else of the review changes. *)
Lemma submit_ratings_fold (review_id : pyval) (i : oid) (rs : list Z) :
  ObjectId review_id = Ok i ->
  Forall (fun r => 1 <= r <= 5) rs ->
  forall (st : db) (rv : Review.t),
    Mongo.find_one (Mongo.by_id i) (reviews_collection st) = Some rv ->
    rated_ok rv ->
    Review.rating_count rv + Z.of_nat (length rs) < 2 ^ 63 ->
    exists x,
      fold_ratings (Review.rating rv) (Review.rating_count rv) rs
      = Ok (x, Review.rating_count rv + Z.of_nat (length rs)) /\
      Mongo.find_one (Mongo.by_id i)
        (reviews_collection (snd (submit_ratings st review_id rs)))
      = Some (Review.set_rating x (Review.rating_count rv + Z.of_nat (length rs)) rv) /\
      Forall (fun o => o = Response (Message "Rating updated successfully!") 200)
             (fst (submit_ratings st review_id rs)).
Proof.
  intros Hi Hrs. induction Hrs as [| r rs Hr Hrs IH]; intros st rv Hfind Hok Hmax.
  - exists (Review.rating rv). simpl. rewrite Z.add_0_r, set_rating_same.
    repeat split; [exact Hfind | constructor].
  - simpl length in Hmax. rewrite Nat2Z.inj_succ in Hmax.
    destruct (update_rating_in_range st (rating_request review_id (VInt r))
                review_id r i rv) as (f & Hf & Hup);
      try assumption; try reflexivity; try lia.
    set (rv1 := Review.set_rating (NFloat f) (Review.rating_count rv + 1) rv).
    set (st1 := mkdb (users_collection st)
                  (Mongo.update_one (Mongo.by_id i)
                     (Review.set_rating (NFloat f) (Review.rating_count rv + 1))
                     (reviews_collection st))
                  (oids st) (drawn st)) in *.
    assert (Hfind1 : Mongo.find_one (Mongo.by_id i) (reviews_collection st1) = Some rv1).
    { apply find_one_update_one; [apply by_id_set_rating | exact Hfind]. }
    assert (Hok1 : rated_ok rv1).
    { destruct Hok as [Hk _]. split; simpl; [lia | right; eauto]. }
    destruct (IH st1 rv1 Hfind1 Hok1) as (x & Hx & Hfx & Hall).
    { simpl. lia. }
    exists x. simpl submit_ratings. rewrite Hup.
    destruct (submit_ratings st1 review_id rs) as [os st2] eqn:E.
    simpl in *. rewrite Hf. simpl.
    rewrite Nat2Z.inj_succ.
    replace (Review.rating_count rv + Z.succ (Z.of_nat (length rs)))
      with (Review.rating_count rv + 1 + Z.of_nat (length rs)) by lia.
    repeat split; [exact Hx | exact Hfx | constructor; [reflexivity | exact Hall]].
Qed.

Lemma sf_same_eq (a b : spec_float) : sf_same a b = true -> a = b.
Proof.
  destruct a as [s | s | | s m e], b as [s' | s' | | s' m' e']; simpl;
    try discriminate; try reflexivity.
  - intros H. apply eqb_prop in H. congruence.
  - intros H. apply eqb_prop in H. congruence.
  - rewrite !andb_true_iff. intros [[Hs Hm] He].
    apply eqb_prop in Hs. apply Pos.eqb_eq in Hm. apply Z.eqb_eq in He.
    congruence.
Qed.

Lemma exact_level_step (k total r : Z) :
  exact_level k = true ->
  k <= total <= 5 * k ->
  1 <= r <= 5 ->
  fold_rating (NFloat (mean_of total k)) k (NInt r)
  = Ok (NFloat (mean_of (total + r) (k + 1)), k + 1).
Proof.
  intros Hlevel Htotal Hr. unfold exact_level in Hlevel.
  rewrite forallb_forall in Hlevel.
  assert (Hin : In total (seqZ k (4 * k + 1))).
  { apply list_elem_of_In, elem_of_seqZ. lia. }
  specialize (Hlevel total Hin). unfold exact_step in Hlevel.
  rewrite forallb_forall in Hlevel.
  assert (Hin' : In r [1; 2; 3; 4; 5]) by (simpl; lia).
  specialize (Hlevel r Hin'). cbv beta in Hlevel.
  destruct (fold_rating (NFloat (mean_of total k)) k (NInt r))
    as [[y k'] |] eqn:E; [| discriminate].
  destruct y as [z | f]; [discriminate |].
  apply fold_rating_count in E as ->.
  apply sf_same_eq in Hlevel. rewrite Hlevel. reflexivity.
Qed.

(** Levels 1 to 6, every sum: checked by running them. *)
Lemma exact_levels : forallb exact_level [1; 2; 3; 4; 5; 6] = true.
Proof. vm_compute. reflexivity. Qed.

Lemma exact_first (r : Z) :
  1 <= r <= 5 ->
  fold_rating (NInt 0) 0 (NInt r) = Ok (NFloat (mean_of r 1), 1).
Proof.
  intros Hr.
  assert (Hcases : r = 1 \/ r = 2 \/ r = 3 \/ r = 4 \/ r = 5) by lia.
  destruct Hcases as [-> | [-> | [-> | [-> | ->]]]]; vm_compute; reflexivity.
Qed.

(** The bound is sharp: at count 7 and sum 29 a further rating breaks it. *)
Lemma exact_step_7_29 : exact_step 7 29 = false.
Proof. vm_compute. reflexivity. Qed.

(** From a stored mean that is the float of [total / k], further ratings
    keep it so as long as the count stays within 7. *)
Lemma fold_ratings_exact_from (rs : list Z) :
  Forall (fun r => 1 <= r <= 5) rs ->
  forall k total : Z,
    1 <= k ->
    k <= total <= 5 * k ->
    k + Z.of_nat (length rs) <= 7 ->
    fold_ratings (NFloat (mean_of total k)) k rs
    = Ok (NFloat (mean_of (total + sum_Z rs) (k + Z.of_nat (length rs))),
          k + Z.of_nat (length rs)).
Proof.
  induction 1 as [| r rs Hr Hrs IH]; intros k total Hk Htotal Hlen.
  - simpl. rewrite !Z.add_0_r. reflexivity.
  - simpl length in *. rewrite Nat2Z.inj_succ in *.
    assert (Hlevel : exact_level k = true).
    { pose proof exact_levels as H. rewrite forallb_forall in H.
      apply H. simpl. lia. }
    simpl fold_ratings.
    rewrite (exact_level_step k total r Hlevel Htotal Hr).
    unfold mbind, res_bind. cbv beta iota. unfold fst, snd.
    rewrite (IH (k + 1) (total + r)) by lia.
    replace (total + r + sum_Z rs) with (total + sum_Z (r :: rs)) by (simpl; lia).
    replace (k + 1 + Z.of_nat (length rs)) with (k + Z.succ (Z.of_nat (length rs)))
      by lia.
    reflexivity.
Qed.

(** Up to seven ratings of a new review store the float of [sum / n]. *)
Lemma fold_ratings_exact (rs : list Z) :
  Forall (fun r => 1 <= r <= 5) rs ->
  rs <> [] ->
  (length rs <= 7)%nat ->
  fold_ratings (NInt 0) 0 rs = Ok (NFloat (py_mean rs), Z.of_nat (length rs)).
Proof.
  intros Hrs Hne Hlen. destruct rs as [| r rs]; [congruence |].
  inversion Hrs as [| ? ? Hr Hrs']; subst.
  simpl fold_ratings. rewrite (exact_first r Hr).
  unfold mbind, res_bind. cbv beta iota. unfold fst, snd.
  rewrite (fold_ratings_exact_from rs Hrs' 1 r) by (simpl in Hlen; lia).
  unfold py_mean. simpl length. rewrite Nat2Z.inj_succ.
  replace (1 + Z.of_nat (length rs)) with (Z.succ (Z.of_nat (length rs))) by lia.
  reflexivity.
Qed.

(** An id that no document of the collection has finds nothing. *)
Lemma by_id_fresh (c : list Review.t) (i : oid) :
  Forall (fun x => Review._id x <> i) c ->
  Mongo.find_one (Mongo.by_id i) c = None.
Proof.
  intros Hfresh. apply find_one_none.
  eapply Forall_impl; [exact Hfresh |]. simpl.
  intros r Hr. unfold Mongo.by_id. apply N.eqb_neq. exact Hr.
Qed.

(** The review [add_review] has just stored is the one its id finds: the
    store accepted the id, so no earlier review has it. *)
Lemma add_review_found (st : db) (data : json) (b : body) (st1 : db) :
  add_review st data = (Response b 201, st1) ->
  exists rv,
    Mongo.find_one (Mongo.by_id (next_oid st)) (reviews_collection st1) = Some rv /\
    Review.rating rv = NInt 0 /\ Review.rating_count rv = 0 /\
    Review.comments rv = [].
Proof.
  intros Hadd.
  destruct (add_review_created st data b st1 Hadd)
    as (rv & Hrv & _ & _ & Hid & Hr & Hc & Hcs & Hfresh).
  exists rv. repeat split; try assumption.
  rewrite Hrv, (find_one_app_r _ _ _ (by_id_fresh _ _ Hfresh)).
  unfold Mongo.find_one. simpl. unfold Mongo.by_id. rewrite Hid, N.eqb_refl.
  reflexivity.
Qed.

(** C1 as the code has it.  A review just created by [add_review] and then
    rated [n] times through [update_rating], each rating an int in 1..5:
    every request is answered 200, the stored rating_count is [n], and the
    stored rating is the running mean folded in binary64 arithmetic.  For
    [1 <= n <= 7] that float is exactly [sum / n] as Python computes it; for
    longer sequences the roundings of the fold can add up (see the
    counterexample), so only the count is exact. *)
Theorem ratings_of_new_review
    (st : db) (data : json) (b : body) (st1 : db) (review_id : pyval)
    (rs : list Z) :
  add_review st data = (Response b 201, st1) ->
  ObjectId review_id = Ok (next_oid st) ->
  Forall (fun r => 1 <= r <= 5) rs ->
  Z.of_nat (length rs) < 2 ^ 63 ->
  exists rv,
    Mongo.find_one (Mongo.by_id (next_oid st))
      (reviews_collection (snd (submit_ratings st1 review_id rs))) = Some rv /\
    Forall (fun o => o = Response (Message "Rating updated successfully!") 200)
           (fst (submit_ratings st1 review_id rs)) /\
    Review.rating_count rv = Z.of_nat (length rs) /\
    fold_ratings (NInt 0) 0 rs = Ok (Review.rating rv, Z.of_nat (length rs)) /\
    ((1 <= length rs <= 7)%nat -> Review.rating rv = NFloat (py_mean rs)).
Proof.
  intros Hadd Hid Hrs Hlen.
  destruct (add_review_found st data b st1 Hadd) as (rv0 & Hfind & Hr0 & Hc0 & _).
  assert (Hok : rated_ok rv0).
  { split; [lia | left; split; assumption]. }
  destruct (submit_ratings_fold review_id (next_oid st) rs Hid Hrs st1 rv0 Hfind Hok)
    as (x & Hx & Hfx & Hall); [lia |].
  rewrite Hr0, Hc0 in Hx. rewrite Hc0 in Hfx. simpl Z.add in Hx, Hfx.
  eexists. split; [exact Hfx |]. split; [exact Hall |]. simpl.
  split; [reflexivity |]. split; [exact Hx |].
  intros [Hlo Hhi].
  assert (Hne : rs <> []) by (destruct rs; [simpl in Hlo; lia | discriminate]).
  pose proof (fold_ratings_exact rs Hrs Hne Hhi) as He.
  rewrite Hx in He. injection He as ->. reflexivity.
Qed.

(** The example of the specification: 4 then 2 gives 3.0 and count 2. *)
Lemma ratings_of_new_review_witness :
  exists rv,
    Mongo.find_one (Mongo.by_id 0%N)
      (reviews_collection (snd (submit_ratings one_review id0 [4; 2]))) = Some rv /\
    Review.rating_count rv = 2 /\
    Review.rating rv = NFloat (S754_finite false 6755399441055744 (-51)).
Proof.
  destruct (ratings_of_new_review empty_db sample_review
              (Message "Review added successfully!") one_review id0 [4; 2])
    as (rv & Hfind & _ & Hcount & _ & Hmean).
  - reflexivity.
  - reflexivity.
  - repeat constructor; lia.
  - reflexivity.
  - exists rv. split; [exact Hfind |]. split; [exact Hcount |].
    apply Hmean. simpl. lia.
Defined.

(** After the 4 alone: 4.0 and count 1. *)
Lemma rating_after_4 :
  map (fun rv => (Review.rating rv, Review.rating_count rv))
      (reviews_collection (snd (submit_ratings one_review id0 [4])))
  = [(NFloat (S754_finite false 4503599627370496 (-50)), 1)].
Proof. vm_compute. reflexivity. Qed.

(** C1, the claim as stated fails: the eight ratings 1 3 5 5 5 5 5 1 sum to
    30, and 30/8 = 3.75 is a double, 8444249301319680 * 2^-51; the stored
    rating is the next double up, 3.7500000000000004. *)
Lemma mean_of_eight_ratings_counterexample :
  exists rv f q,
    Mongo.find_one (Mongo.by_id 0%N)
      (reviews_collection
         (snd (submit_ratings one_review id0 [1; 3; 5; 5; 5; 5; 5; 1]))) = Some rv /\
    Review.rating_count rv = 8 /\
    Review.rating rv = NFloat f /\
    f = S754_finite false 8444249301319681 (-51) /\
    py_mean [1; 3; 5; 5; 5; 5; 5; 1] = S754_finite false 8444249301319680 (-51) /\
    f <> py_mean [1; 3; 5; 5; 5; 5; 5; 1] /\
    float_value f = Some q /\ ~ (q == 30 # 8)%Q.
Proof.
  eexists. eexists. eexists.
  split; [vm_compute; reflexivity |].
  split; [reflexivity |].
  split; [reflexivity |].
  split; [reflexivity |].
  split; [vm_compute; reflexivity |].
  split; [vm_compute; discriminate |].
  split; [reflexivity |].
  apply Qeq_bool_neq. vm_compute. reflexivity.
Qed.

(* ===================================================================== *)
(** ** update_rating: two invocations on one review *)
(* ===================================================================== *)

Import Interleaving.

(** The schedule in which the first invocation ends before the second starts
    is the handler called twice. *)
Lemma run_serial_is_sequential (st : db) (d1 d2 : json) :
  run d1 d2 [FindOne T1; UpdateOne T1; FindOne T2; UpdateOne T2] st
  = mkworld (snd (update_rating (snd (update_rating st d1)) d2))
            (Done (fst (update_rating st d1)))
            (Done (fst (update_rating (snd (update_rating st d1)) d2))).
Proof.
  unfold run, update_rating.
  cbn [fold_left exec slot_of with_slot store slot1 slot2].
  destruct (update_rating_read st d1) as [[early1 | p1] | e1];
    cbn [exec slot_of with_slot store slot1 slot2 fst snd].
  - destruct (update_rating_read st d2) as [[early2 | p2] | e2];
      cbn [exec slot_of with_slot store slot1 slot2 fst snd]; try reflexivity.
    destruct (update_rating_write st p2); reflexivity.
  - destruct (update_rating_write st p1) as [o1 st1];
      cbn [exec slot_of with_slot store slot1 slot2 fst snd].
    destruct (update_rating_read st1 d2) as [[early2 | p2] | e2];
      cbn [exec slot_of with_slot store slot1 slot2 fst snd]; try reflexivity.
    destruct (update_rating_write st1 p2); reflexivity.
  - destruct (update_rating_read st d2) as [[early2 | p2] | e2];
      cbn [exec slot_of with_slot store slot1 slot2 fst snd]; try reflexivity.
    destruct (update_rating_write st p2); reflexivity.
Qed.

Section TwoInvocations.

Variables (d1 d2 : json) (id1 id2 : pyval) (r1 r2 : Z) (i : oid).
Hypothesis d1_id : d1 !! "reviewId" = Some id1.
Hypothesis d1_rating : d1 !! "rating" = Some (VInt r1).
Hypothesis r1_range : 1 <= r1 <= 5.
Hypothesis id1_ok : ObjectId id1 = Ok i.
Hypothesis d2_id : d2 !! "reviewId" = Some id2.
Hypothesis d2_rating : d2 !! "rating" = Some (VInt r2).
Hypothesis r2_range : 1 <= r2 <= 5.
Hypothesis id2_ok : ObjectId id2 = Ok i.

Let ok : outcome := Response (Message "Rating updated successfully!") 200.

Lemma read_holds (t : thread) (st : db) (rv : Review.t) :
  Mongo.find_one (Mongo.by_id i) (reviews_collection st) = Some rv ->
  rated_ok rv ->
  Review.rating_count rv < 2 ^ 63 - 1 ->
  exists f,
    fold_rating (Review.rating rv) (Review.rating_count rv)
                (NInt (rating_of r1 r2 t))
    = Ok (NFloat f, Review.rating_count rv + 1) /\
    update_rating_read st (match t with T1 => d1 | T2 => d2 end)
    = Ok (inr (i, NFloat f, Review.rating_count rv + 1)).
Proof.
  intros Hfind Hok Hmax. destruct t; simpl rating_of.
  - destruct (fold_rating_ok rv r1 Hok Hmax r1_range) as [f Hf]. exists f.
    split; [exact Hf |].
    rewrite (update_rating_read_in_range st d1 id1 r1 i d1_id d1_rating r1_range id1_ok).
    rewrite Hfind, Hf. reflexivity.
  - destruct (fold_rating_ok rv r2 Hok Hmax r2_range) as [f Hf]. exists f.
    split; [exact Hf |].
    rewrite (update_rating_read_in_range st d2 id2 r2 i d2_id d2_rating r2_range id2_ok).
    rewrite Hfind, Hf. reflexivity.
Qed.

Lemma exec_find (t : thread) (w : world) (rv : Review.t) :
  slot_of t w = Idle ->
  Mongo.find_one (Mongo.by_id i) (reviews_collection (store w)) = Some rv ->
  rated_ok rv ->
  Review.rating_count rv < 2 ^ 63 - 1 ->
  exists f,
    fold_rating (Review.rating rv) (Review.rating_count rv)
                (NInt (rating_of r1 r2 t))
    = Ok (NFloat f, Review.rating_count rv + 1) /\
    exec d1 d2 w (FindOne t)
    = with_slot t (store w) (Holding (i, NFloat f, Review.rating_count rv + 1)) w.
Proof.
  intros Hidle Hfind Hok Hmax.
  destruct (read_holds t (store w) rv Hfind Hok Hmax) as (f & Hfold & Hf).
  exists f. split; [exact Hfold |]. unfold exec. rewrite Hidle, Hf. reflexivity.
Qed.

Lemma exec_update (t : thread) (w : world) (f : spec_float) (k : Z) :
  slot_of t w = Holding (i, NFloat f, k) ->
  0 <= k < 2 ^ 63 ->
  exec d1 d2 w (UpdateOne t)
  = with_slot t (store_rating (store w) i (NFloat f) k) (Done ok) w.
Proof.
  intros Hhold Hk. unfold exec. rewrite Hhold.
  unfold update_rating_write. rewrite (encode_rating f k Hk). reflexivity.
Qed.

Lemma found_after_store (st : db) (rv : Review.t) (a : num) (k : Z) :
  Mongo.find_one (Mongo.by_id i) (reviews_collection st) = Some rv ->
  Mongo.find_one (Mongo.by_id i) (reviews_collection (store_rating st i a k))
  = Some (Review.set_rating a k rv).
Proof.
  intros Hfind. unfold store_rating. simpl.
  apply find_one_update_one; [apply by_id_set_rating | exact Hfind].
Qed.

Lemma rated_ok_set (f : spec_float) (k : Z) (rv : Review.t) :
  0 <= k -> rated_ok (Review.set_rating (NFloat f) k rv).
Proof. intros Hk. split; simpl; [exact Hk | right; eauto]. Qed.

Ltac find_step t rv Hfind Hok f Hf :=
  let E := fresh "E" in
  match goal with
  | |- context [exec d1 d2 ?w (FindOne t)] =>
      destruct (exec_find t w rv) as (f & Hf & E);
      [ reflexivity | exact Hfind | exact Hok | simpl; lia
      | rewrite E; clear E; cbn [with_slot store slot1 slot2];
        simpl rating_of in Hf ]
  end.

Ltac update_step t :=
  match goal with
  | |- context [exec d1 d2 ?w (UpdateOne t)] =>
      let s := eval cbn [slot_of slot1 slot2] in (slot_of t w) in
      match s with
      | Holding (_, NFloat ?f, ?k) =>
          rewrite (exec_update t w f k eq_refl) by (simpl; lia);
          cbn [with_slot store slot1 slot2]
      end
  end.

(** Both invocations read, then both write: the second write stands. *)
Ltac lost_update Hfind Hf :=
  repeat split; eexists;
  split; [apply found_after_store, found_after_store, Hfind |];
  split; [simpl; rewrite Hf; reflexivity | simpl; lia].

(** C4 as the code has it.  Two invocations of [update_rating] with accepted
    ratings for the same review, their store operations interleaved in any
    of the six possible orders: both are answered 200.  When one invocation
    ended before the other started, the stored mean and count have both
    ratings folded in, in that order, and the count has grown by two.  In
    the four orders in which both read the review before either writes, the
    stored mean and count have only the rating of the last writer folded in:
    the count has grown by one and the other update is lost. *)
Theorem two_update_ratings (st : db) (rv : Review.t) (s : list op) :
  Mongo.find_one (Mongo.by_id i) (reviews_collection st) = Some rv ->
  rated_ok rv ->
  Review.rating_count rv + 2 < 2 ^ 63 ->
  In s schedules ->
  slot1 (run d1 d2 s st) = Done ok /\
  slot2 (run d1 d2 s st) = Done ok /\
  exists rv',
    Mongo.find_one (Mongo.by_id i) (reviews_collection (store (run d1 d2 s st)))
    = Some rv' /\
    fold_ratings (Review.rating rv) (Review.rating_count rv) (reflected r1 r2 s)
    = Ok (Review.rating rv', Review.rating_count rv') /\
    Review.rating_count rv'
    = Review.rating_count rv + (if serial s then 2 else 1).
Proof.
  intros Hfind Hok Hmax Hs.
  assert (Hk : 0 <= Review.rating_count rv) by (destruct Hok; assumption).
  simpl in Hs.
  destruct Hs as [<- | [<- | [<- | [<- | [<- | [<- | []]]]]]];
    unfold run; cbn [fold_left serial reflected rating_of].
  - find_step T1 rv Hfind Hok f Hf. update_step T1.
    pose proof (found_after_store st rv (NFloat f) (Review.rating_count rv + 1)
                  Hfind) as Hfind1.
    pose proof (rated_ok_set f (Review.rating_count rv + 1) rv ltac:(lia)) as Hok1.
    find_step T2 (Review.set_rating (NFloat f) (Review.rating_count rv + 1) rv)
              Hfind1 Hok1 g Hg.
    update_step T2.
    repeat split. eexists. split; [apply found_after_store, Hfind1 |].
    split; [| simpl; lia].
    simpl in Hg |- *. rewrite Hf. simpl. rewrite Hg. reflexivity.
  - find_step T2 rv Hfind Hok f Hf. update_step T2.
    pose proof (found_after_store st rv (NFloat f) (Review.rating_count rv + 1)
                  Hfind) as Hfind1.
    pose proof (rated_ok_set f (Review.rating_count rv + 1) rv ltac:(lia)) as Hok1.
    find_step T1 (Review.set_rating (NFloat f) (Review.rating_count rv + 1) rv)
              Hfind1 Hok1 g Hg.
    update_step T1.
    repeat split. eexists. split; [apply found_after_store, Hfind1 |].
    split; [| simpl; lia].
    simpl in Hg |- *. rewrite Hf. simpl. rewrite Hg. reflexivity.
  - find_step T1 rv Hfind Hok f Hf. find_step T2 rv Hfind Hok g Hg.
    update_step T1. update_step T2. lost_update Hfind Hg.
  - find_step T1 rv Hfind Hok f Hf. find_step T2 rv Hfind Hok g Hg.
    update_step T2. update_step T1. lost_update Hfind Hf.
  - find_step T2 rv Hfind Hok f Hf. find_step T1 rv Hfind Hok g Hg.
    update_step T1. update_step T2. lost_update Hfind Hf.
  - find_step T2 rv Hfind Hok f Hf. find_step T1 rv Hfind Hok g Hg.
    update_step T2. update_step T1. lost_update Hfind Hg.
Qed.

End TwoInvocations.

Lemma two_update_ratings_witness :
  let d1 := rating_request id0 (VInt 4) in
  let d2 := rating_request id0 (VInt 2) in
  let s := [FindOne T1; UpdateOne T1; FindOne T2; UpdateOne T2] in
  slot1 (run d1 d2 s one_review)
  = Done (Response (Message "Rating updated successfully!") 200) /\
  slot2 (run d1 d2 s one_review)
  = Done (Response (Message "Rating updated successfully!") 200) /\
  exists rv',
    Mongo.find_one (Mongo.by_id 0%N)
      (reviews_collection (store (run d1 d2 s one_review))) = Some rv' /\
    fold_ratings (NInt 0) 0 (reflected 4 2 s)
    = Ok (Review.rating rv', Review.rating_count rv') /\
    Review.rating_count rv' = 0 + (if serial s then 2 else 1).
Proof.
  intros d1 d2 s.
  apply (two_update_ratings d1 d2 id0 id0 4 2 0%N) with
    (rv := Review.mk 0%N (VStr "Ann") (VStr "Paris") (VStr "leisure")
             (VStr "low") (VStr "train") (VStr "Lovely.") (VList [])
             (NInt 0) 0 []).
  - reflexivity.
  - reflexivity.
  - lia.
  - reflexivity.
  - reflexivity.
  - reflexivity.
  - lia.
  - reflexivity.
  - reflexivity.
  - split; [simpl; lia | left; split; reflexivity].
  - reflexivity.
  - left. reflexivity.
Defined.

(** C4, the claim as stated fails: ratings 4 and 2 for the new review, both
    invocations reading before either writes.  Both are answered 200, and
    the store ends with count 1 and mean 2.0: the 4 is lost. *)
Lemma lost_update_counterexample :
  let w := run (rating_request id0 (VInt 4)) (rating_request id0 (VInt 2))
               [FindOne T1; FindOne T2; UpdateOne T1; UpdateOne T2] one_review in
  slot1 w = Done (Response (Message "Rating updated successfully!") 200) /\
  slot2 w = Done (Response (Message "Rating updated successfully!") 200) /\
  map (fun rv => (Review.rating rv, Review.rating_count rv))
      (reviews_collection (store w))
  = [(NFloat (S754_finite false 4503599627370496 (-51)), 1)].
Proof. vm_compute. repeat split. Qed.

(* ===================================================================== *)
(** ** What the handlers preserve *)
(* ===================================================================== *)

Lemma py_truediv_float (x y a : num) :
  py_truediv x y = Ok a -> exists f, a = NFloat f.
Proof.
  unfold py_truediv.
  destruct x as [zx | fx], y as [zy | fy]; simpl.
  - destruct (zy =? 0); [discriminate |].
    destruct (is_infinity _); [discriminate |].
    intros H. injection H as <-. eauto.
  - destruct (float_of_int zx); simpl; [| discriminate].
    destruct (is_zero fy); [discriminate |].
    intros H. injection H as <-. eauto.
  - destruct (float_of_int zy); simpl; [| discriminate].
    destruct (zy =? 0); [discriminate |].
    intros H. injection H as <-. eauto.
  - destruct (is_zero fy); [discriminate |].
    intros H. injection H as <-. eauto.
Qed.

(** What [update_rating] holds between its read and its write. *)
Lemma update_rating_read_pending (st : db) (data : json) (i : oid) (a : num) (k : Z) :
  update_rating_read st data = Ok (inr (i, a, k)) ->
  exists rv f,
    ObjectId (py_get data "reviewId") = Ok i /\
    Mongo.find_one (Mongo.by_id i) (reviews_collection st) = Some rv /\
    a = NFloat f /\ k = Review.rating_count rv + 1.
Proof.
  unfold update_rating_read.
  destruct (py_not (py_get data "reviewId") || py_not (py_get data "rating"));
    [discriminate |].
  destruct (int_le_py 1 (py_get data "rating")) as [lo |]; simpl; [| discriminate].
  destruct (if lo then py_le_int (py_get data "rating") 5 else Ok false)
    as [hi |]; simpl; [| discriminate].
  destruct hi; simpl; [| discriminate].
  destruct (ObjectId (py_get data "reviewId")) as [j |]; simpl; [| discriminate].
  destruct (Mongo.find_one (Mongo.by_id j) (reviews_collection st)) as [rv |] eqn:F;
    [| discriminate].
  destruct (to_num (py_get data "rating")) as [r |]; simpl; [| discriminate].
  destruct (py_mul _ _) as [w |]; simpl; [| discriminate].
  destruct (py_add _ _) as [t |]; simpl; [| discriminate].
  destruct (py_truediv _ _) as [avg |] eqn:D; simpl; [| discriminate].
  intros H. injection H as <- <- <-.
  destruct (py_truediv_float _ _ _ D) as [f ->].
  exists rv, f. repeat split. exact F.
Qed.

(** X16. A rating for one review leaves every other review as it was. *)
Lemma update_rating_other_review (st : db) (data : json) (i : oid) :
  ObjectId (py_get data "reviewId") <> Ok i ->
  Mongo.find_one (Mongo.by_id i) (reviews_collection (snd (update_rating st data)))
  = Mongo.find_one (Mongo.by_id i) (reviews_collection st).
Proof.
  intros Hne. unfold update_rating.
  destruct (update_rating_read st data) as [[early | [[j a] k]] | e] eqn:R;
    try reflexivity.
  destruct (update_rating_read_pending st data j a k R) as (rv & f & Hj & _).
  unfold update_rating_write. destruct (encode _); [| reflexivity].
  simpl. apply find_one_update_one_other; [apply by_id_set_rating |].
  intros x. apply by_id_other. congruence.
Qed.

(** A rating that is not a number does not reach the range check's 400:
    comparing it with 1 raises TypeError. *)
Lemma update_rating_string_rating :
  update_rating one_review (rating_request id0 (VStr "4"))
  = (Raised TypeError, one_review).
Proof. vm_compute. reflexivity. Qed.

(** The four ways a request can leave the reviews: untouched, one appended
    whose id no stored review has, the rating fields of one set, a comment
    pushed. *)
Lemma handle_reviews (h t : pyval -> res string) (st : db) (rq : request) :
  let st' := snd (handle h t st rq) in
  reviews_collection st' = reviews_collection st \/
  (exists rv,
     reviews_collection st' = reviews_collection st ++ [rv] /\
     Forall (fun x => Review._id x <> Review._id rv) (reviews_collection st) /\
     Review._id rv = next_oid st /\
     Review.rating rv = NInt 0 /\ Review.rating_count rv = 0) \/
  (exists i rv f,
     Mongo.find_one (Mongo.by_id i) (reviews_collection st) = Some rv /\
     st' = store_rating st i (NFloat f) (Review.rating_count rv + 1)) \/
  (exists i c,
     reviews_collection st'
     = Mongo.update_one (Mongo.by_id i) (Review.push_comment c) (reviews_collection st)).
Proof.
  destruct rq as [data | data | args | identity data | data]; simpl.
  - left. unfold signup.
    destruct (py_not (py_get data "name") || py_not (py_get data "email")
              || py_not (py_get data "password")); [reflexivity |].
    destruct (encode _); [| reflexivity].
    destruct (Mongo.find_one _ _); [reflexivity |].
    destruct (h _); simpl; [| reflexivity].
    destruct (encode _); simpl; [| reflexivity].
    destruct (Mongo.insert_one _ _ _); [| reflexivity].
    destruct (t _); reflexivity.
  - destruct (add_review st data) as [o st'] eqn:E. simpl.
    assert (Hcases : reviews_collection st' = reviews_collection st \/
                     exists b, o = Response b 201).
    { unfold add_review in E.
      repeat match type of E with
             | (match ?m with Ok _ => _ | Raise _ => _ end) = _ =>
                 destruct m; simpl in E
             end;
        injection E as <- <-; eauto. }
    destruct Hcases as [Hsame | [b ->]]; [left; exact Hsame |].
    right. left.
    destruct (add_review_created st data b st' E)
      as (rv & Hrv & _ & _ & Hid & Hr & Hc & _ & Hfresh).
    exists rv. split; [exact Hrv |]. split; [rewrite Hid; exact Hfresh |].
    repeat split; assumption.
  - left. reflexivity.
  - unfold add_comment. destruct identity as [e |]; [| left; reflexivity].
    destruct (py_not (py_get data "reviewId") || py_not (py_get data "comment"));
      [left; reflexivity |].
    destruct (ObjectId _) as [i |]; simpl; [| left; reflexivity].
    destruct (encode _); simpl; [| left; reflexivity].
    right. right. right. eexists. eexists. reflexivity.
  - unfold update_rating.
    destruct (update_rating_read st data) as [[early | [[i a] k]] | e] eqn:R;
      simpl; try (left; reflexivity).
    destruct (update_rating_read_pending st data i a k R) as (rv & f & _ & Hf & -> & ->).
    unfold update_rating_write.
    destruct (encode _); simpl; [| left; reflexivity].
    right. right. left. exists i, rv, f. split; [exact Hf | reflexivity].
Qed.

Lemma Forall_update_one {A : Type} (P : A -> Prop) (p : A -> bool) (f : A -> A)
    (c : list A) :
  Forall P c -> (forall d, P d -> p d = true -> P (f d)) ->
  Forall P (Mongo.update_one p f c).
Proof.
  intros Hc Hf. induction Hc as [| d c Hd Hc IH]; simpl; [constructor |].
  destruct (p d) eqn:E; constructor; auto.
Qed.

Lemma wf_db_same_ids (st st' : db) :
  ids_of st' = ids_of st -> wf_db st -> wf_db st'.
Proof. unfold wf_db. intros ->. tauto. Qed.

Lemma wf_db_append (st st' : db) (rv : Review.t) :
  reviews_collection st' = reviews_collection st ++ [rv] ->
  Forall (fun x => Review._id x <> Review._id rv) (reviews_collection st) ->
  wf_db st -> wf_db st'.
Proof.
  unfold wf_db, ids_of. intros -> Hfresh Hnd.
  rewrite map_app. simpl. apply NoDup_snoc; [exact Hnd |].
  intros Hin. apply in_map_iff in Hin as (x & Hx & Hin).
  rewrite List.Forall_forall in Hfresh. exact (Hfresh x Hin Hx).
Qed.

(** The ids stay pairwise distinct and the rating fields keep their shape,
    whatever the request. *)
Lemma handle_wf (h t : pyval -> res string) (st : db) (rq : request) :
  wf_db st -> Forall rated_ok (reviews_collection st) ->
  wf_db (snd (handle h t st rq)) /\
  Forall rated_ok (reviews_collection (snd (handle h t st rq))).
Proof.
  intros Hwf Hrated.
  destruct (handle_reviews h t st rq)
    as [Hsame | [(rv & Happ & Hfresh & _ & Hr & Hc)
       | [(i & rv & f & Hfind & Hst) | (i & c & Hpush)]]].
  - split; [| rewrite Hsame; exact Hrated].
    apply (wf_db_same_ids st); [unfold ids_of; rewrite Hsame; reflexivity | exact Hwf].
  - split; [apply (wf_db_append st _ rv); assumption |].
    rewrite Happ. apply Forall_app. split; [exact Hrated |].
    constructor; [| constructor]. split; [lia | left; split; assumption].
  - rewrite Hst. split.
    + apply (wf_db_same_ids st); [| exact Hwf].
      unfold ids_of, store_rating. simpl. apply map_update_one. reflexivity.
    + unfold store_rating. simpl. apply Forall_update_one; [exact Hrated |].
      intros d _ _. apply rated_ok_set.
      assert (Hin : In rv (reviews_collection st)).
      { unfold Mongo.find_one in Hfind. apply find_some in Hfind. tauto. }
      rewrite List.Forall_forall in Hrated. destruct (Hrated rv Hin). lia.
  - split.
    + apply (wf_db_same_ids st); [| exact Hwf].
      unfold ids_of. rewrite Hpush. apply map_update_one. reflexivity.
    + rewrite Hpush. apply Forall_update_one; [exact Hrated |].
      intros d Hd _. exact Hd.
Qed.

(** No request changes the sequence of ids the driver generates; a request
    can only move on in it, and [add_review] that appends a review moves on
    by one. *)
Lemma handle_generator (h t : pyval -> res string) (st : db) (rq : request) :
  let st' := snd (handle h t st rq) in
  oids st' = oids st /\ (drawn st <= drawn st')%nat /\
  (length (reviews_collection st') = S (length (reviews_collection st)) ->
   drawn st' = S (drawn st)).
Proof.
  assert (Hlen : forall (p : Review.t -> bool) f c,
            (forall x, Review._id (f x) = Review._id x) ->
            length (Mongo.update_one p f c) = length c).
  { intros p f c Hf.
    rewrite <- (length_map Review._id), (map_update_one Review._id), length_map
      by exact Hf. reflexivity. }
  destruct rq as [data | data | args | identity data | data]; simpl.
  - unfold signup.
    repeat match goal with
           | |- context [match ?m with Ok _ => _ | Raise _ => _ end] =>
               destruct m; simpl
           | |- context [match ?m with Some _ => _ | None => _ end] =>
               destruct m; simpl
           | |- context [if ?c then _ else _] => destruct c; simpl
           end;
      (split; [reflexivity | split; [lia | intros; lia]]).
  - unfold add_review.
    repeat match goal with
           | |- context [match ?m with Ok _ => _ | Raise _ => _ end] =>
               destruct m; simpl
           end;
      (split; [reflexivity | split; [lia | intros; lia]]).
  - split; [reflexivity | split; [lia | intros; lia]].
  - unfold add_comment.
    repeat match goal with
           | |- context [match ?m with Ok _ => _ | Raise _ => _ end] =>
               destruct m; simpl
           | |- context [match ?m with Some _ => _ | None => _ end] =>
               destruct m; simpl
           | |- context [if ?c then _ else _] => destruct c; simpl
           end;
      rewrite ?Hlen by reflexivity;
      (split; [reflexivity | split; [lia | intros; lia]]).
  - unfold update_rating.
    destruct (update_rating_read st data) as [[early | [[i a] k]] | e];
      simpl; try (split; [reflexivity | split; [lia | intros; lia]]).
    unfold update_rating_write.
    destruct (encode _); simpl; rewrite ?Hlen by reflexivity;
      (split; [reflexivity | split; [lia | intros; lia]]).
Qed.

Lemma StronglySorted_snoc (ks : list nat) (d : nat) :
  StronglySorted lt ks -> Forall (fun k => (k < d)%nat) ks ->
  StronglySorted lt (ks ++ [d]).
Proof.
  induction 1 as [| k ks Hs IH Hall]; simpl; intros Hb.
  - repeat constructor.
  - inversion Hb; subst. constructor; [auto |].
    apply Forall_app. split; [exact Hall | constructor; [assumption | constructor]].
Qed.

(** The stored ids are generated ids in the order of generation, whatever
    the request. *)
Lemma handle_ids_drawn (h t : pyval -> res string) (st : db) (rq : request) :
  ids_drawn st -> ids_drawn (snd (handle h t st rq)).
Proof.
  intros (ks & Hks & Hsorted & Hbound).
  destruct (handle_generator h t st rq) as (Hoids & Hle & Hone).
  unfold ids_drawn. rewrite Hoids.
  assert (Hkeep : ids_of (snd (handle h t st rq)) = ids_of st ->
                  exists ks0, ids_of (snd (handle h t st rq)) = map (oids st) ks0 /\
                    StronglySorted lt ks0 /\
                    Forall (fun k => (k < drawn (snd (handle h t st rq)))%nat) ks0).
  { intros ->. exists ks. split; [exact Hks |]. split; [exact Hsorted |].
    eapply Forall_impl; [exact Hbound |]. simpl. intros k Hk. lia. }
  destruct (handle_reviews h t st rq)
    as [Hsame | [(rv & Happ & _ & Hid & _)
       | [(i & rv & f & _ & Hst) | (i & c & Hpush)]]].
  - apply Hkeep. unfold ids_of. rewrite Hsame. reflexivity.
  - exists (ks ++ [drawn st]).
    rewrite Hone by (rewrite Happ, length_app; simpl; lia).
    split; [| split].
    + unfold ids_of in *. rewrite Happ, !map_app, Hks. simpl. rewrite Hid.
      reflexivity.
    + apply StronglySorted_snoc; assumption.
    + apply Forall_app. split.
      * eapply Forall_impl; [exact Hbound |]. simpl. intros k Hk. lia.
      * constructor; [lia | constructor].
  - apply Hkeep. rewrite Hst. unfold ids_of, store_rating. simpl.
    apply map_update_one. reflexivity.
  - apply Hkeep. unfold ids_of. rewrite Hpush. apply map_update_one. reflexivity.
Qed.

(** Generated in order by a driver whose ids grow, the stored ids grow. *)
Lemma ids_drawn_grow (st : db) : ids_drawn st -> oids_grow st -> ids_grow st.
Proof.
  intros (ks & Hks & Hsorted & _) Hgrow. unfold ids_grow. rewrite Hks.
  clear Hks. induction Hsorted as [| k ks Hs IH Hall]; simpl; constructor.
  - exact IH.
  - rewrite Forall_map. eapply Forall_impl; [exact Hall |]. simpl.
    intros k' Hk'. apply Hgrow. exact Hk'.
Qed.

Lemma reachable_ids_drawn (h t : pyval -> res string) (st : db) :
  reachable h t st -> ids_drawn st.
Proof.
  induction 1 as [oids | st rq _ IH].
  - exists []. repeat split; constructor.
  - apply handle_ids_drawn. exact IH.
Qed.

Lemma handle_users (h t : pyval -> res string) (st : db) (rq : request) :
  match rq with
  | Signup data => snd (handle h t st rq) = snd (signup h t st data)
  | _ => users_collection (snd (handle h t st rq)) = users_collection st
  end.
Proof.
  destruct rq as [data | data | args | identity data | data]; simpl;
    try reflexivity.
  - unfold add_review.
    repeat match goal with
           | |- context [match ?m with Ok _ => _ | Raise _ => _ end] =>
               destruct m; simpl
           end; reflexivity.
  - unfold add_comment. destruct identity; [| reflexivity].
    destruct (py_not (py_get data "reviewId") || py_not (py_get data "comment"));
      [reflexivity |].
    destruct (ObjectId _); simpl; [| reflexivity].
    destruct (encode _); reflexivity.
  - unfold update_rating.
    destruct (update_rating_read st data) as [[early | [[i a] k]] | e];
      try reflexivity.
    unfold update_rating_write. destruct (encode _); reflexivity.
Qed.

(** X1. Every store the service can reach from the empty one, whatever ids
    the driver generates, is well formed: the ids of the reviews are pairwise
    distinct (the store refuses a second document with an id), and they grow
    with creation if the ids the driver generates grow; rating fields are
    the int 0 with count 0 or a float with a count from 0 up; stored emails
    are truthy, encodable and pairwise distinct. *)
Theorem reachable_db_ok (h t : pyval -> res string) (st : db) :
  reachable h t st -> db_ok st.
Proof.
  intros Hreach.
  assert (Hgrow : oids_grow st -> ids_grow st).
  { apply ids_drawn_grow. exact (reachable_ids_drawn h t st Hreach). }
  assert (Hrest : wf_db st /\ Forall rated_ok (reviews_collection st) /\
                  users_ok st /\ NoDup (emails st));
    [| unfold db_ok; tauto].
  clear Hgrow.
  induction Hreach as [oids | st rq Hreach (Hwf & Hrated & Husers & Hnodup)].
  - repeat split; constructor.
  - destruct (handle_wf h t st rq Hwf Hrated) as [Hwf' Hrated'].
    split; [exact Hwf' |]. split; [exact Hrated' |].
    pose proof (handle_users h t st rq) as Hu.
    destruct rq as [data | data | args | identity data | data].
    + rewrite Hu. split; [apply signup_users_ok, Husers |].
      apply signup_emails_unique, Hnodup.
    + unfold users_ok, emails in *. rewrite Hu. split; assumption.
    + unfold users_ok, emails in *. rewrite Hu. split; assumption.
    + unfold users_ok, emails in *. rewrite Hu. split; assumption.
    + unfold users_ok, emails in *. rewrite Hu. split; assumption.
Qed.

(* ===================================================================== *)
(** ** Object ids and their strings *)
(* ===================================================================== *)

Lemma hex_digit_hex_char (d : N) :
  (d < 16)%N -> hex_digit (hex_char d) = Some d.
Proof.
  intros Hd.
  assert (H : In d (map N.of_nat (seq 0 16))).
  { apply in_map_iff. exists (N.to_nat d). split; [lia |]. apply in_seq. lia. }
  simpl in H.
  repeat (destruct H as [<- | H]; [reflexivity |]). destruct H.
Qed.

Lemma string_app_assoc (s1 s2 s3 : string) :
  ((s1 ++ s2) ++ s3 = s1 ++ (s2 ++ s3))%string.
Proof.
  induction s1 as [| c s1 IH]; [reflexivity |].
  change (String c ((s1 ++ s2) ++ s3) = String c (s1 ++ (s2 ++ s3)))%string.
  rewrite IH. reflexivity.
Qed.

Lemma string_length_app (s1 s2 : string) :
  String.length (s1 ++ s2)%string = (String.length s1 + String.length s2)%nat.
Proof.
  induction s1 as [| c s1 IH]; [reflexivity |].
  change (S (String.length (s1 ++ s2)%string)
          = S (String.length s1 + String.length s2)).
  rewrite IH. reflexivity.
Qed.

Lemma hex_digits_app (n : nat) (x : N) (acc : string) :
  hex_digits n x acc = (hex_digits n x "" ++ acc)%string.
Proof.
  revert x acc. induction n as [| n IH]; intros x acc; simpl; [reflexivity |].
  rewrite (IH (x / 16)%N (String _ acc)), (IH (x / 16)%N (String _ "")).
  rewrite string_app_assoc. reflexivity.
Qed.

Lemma hex_digits_length (n : nat) (x : N) :
  String.length (hex_digits n x "") = n.
Proof.
  revert x. induction n as [| n IH]; intros x; simpl; [reflexivity |].
  rewrite hex_digits_app, string_length_app, IH. simpl. lia.
Qed.

Lemma hex_value_app (s1 s2 : string) (a : N) :
  hex_value (s1 ++ s2)%string a
  = match hex_value s1 a with
    | Some b => hex_value s2 b
    | None => None
    end.
Proof.
  revert a. induction s1 as [| c s1 IH]; intros a; simpl; [reflexivity |].
  destruct (hex_digit c); [apply IH | reflexivity].
Qed.

Lemma hex_value_hex_digits (n : nat) (x a : N) :
  hex_value (hex_digits n x "") a
  = Some (a * 16 ^ N.of_nat n + x mod 16 ^ N.of_nat n)%N.
Proof.
  revert x a. induction n as [| n IH]; intros x a.
  - simpl. rewrite N.mod_1_r. f_equal. lia.
  - simpl hex_digits. rewrite hex_digits_app, hex_value_app, IH. simpl hex_value.
    rewrite hex_digit_hex_char by (apply N.mod_lt; lia).
    f_equal. rewrite Nat2N.inj_succ, N.pow_succ_r'.
    rewrite (N.Div0.mod_mul_r x 16 (16 ^ N.of_nat n)). lia.
Qed.

(** X15. The string of an id reads back as that id: [ObjectId(str(i))] is
    [i], for every id of 12 bytes. *)
Lemma ObjectId_oid_str (i : oid) :
  (i < 2 ^ 96)%N -> ObjectId (VStr (oid_str i)) = Ok i.
Proof.
  intros Hi. unfold ObjectId, oid_str.
  rewrite hex_digits_length. simpl Nat.eqb. cbv iota.
  rewrite hex_value_hex_digits.
  change (16 ^ N.of_nat 24)%N with (2 ^ 96)%N.
  rewrite N.mod_small by exact Hi. reflexivity.
Qed.

(* ===================================================================== *)
(** ** signup, login, profile *)
(* ===================================================================== *)

Section Accounts.
Variable generate_password_hash : pyval -> res string.
Variable create_access_token : pyval -> res string.
Variable check_password_hash : string -> pyval -> res bool.

Local Abbreviation signup_ := (signup generate_password_hash create_access_token).
Local Abbreviation login_ := (login check_password_hash create_access_token).

(** What a 201 of [signup] means. *)
Lemma signup_201 (st : db) (data : json) (b : body) (st1 : db) :
  signup_ st data = (Response b 201, st1) ->
  exists hashed token,
    py_not (py_get data "name") = false /\
    py_not (py_get data "email") = false /\
    py_not (py_get data "password") = false /\
    bson_ok (py_get data "email") = true /\
    Mongo.find_one (fun u => eq_match (User.email u) (py_get data "email"))
                   (users_collection st) = None /\
    generate_password_hash (py_get data "password") = Ok hashed /\
    create_access_token (py_get data "email") = Ok token /\
    b = SignedUp "Signup successful!" token (py_get data "name") /\
    st1 = mkdb (users_collection st ++
                  [User.mk (next_oid st) (py_get data "name")
                     (py_get data "email") hashed (py_get data "address")
                     (py_get data "phone")])
               (reviews_collection st) (oids st) (S (drawn st)).
Proof.
  unfold signup.
  destruct (py_not (py_get data "name")) eqn:E1; simpl; [discriminate |].
  destruct (py_not (py_get data "email")) eqn:E2; simpl; [discriminate |].
  destruct (py_not (py_get data "password")) eqn:E3; simpl; [discriminate |].
  unfold encode at 1. simpl forallb.
  destruct (bson_ok (py_get data "email")) eqn:E4; simpl; [| discriminate].
  destruct (Mongo.find_one _ _) eqn:F; [discriminate |].
  destruct (generate_password_hash _) as [hashed |] eqn:H; simpl; [| discriminate].
  destruct (encode _); simpl; [| discriminate].
  match goal with
  | |- context [Mongo.insert_one ?f ?d ?c] =>
      destruct (Mongo.insert_one f d c) as [users | e] eqn:Hins
  end; [| discriminate].
  apply insert_one_inv in Hins as [-> _].
  destruct (create_access_token _) as [token |] eqn:T; [| discriminate].
  intros Heq. injection Heq as <- <-.
  exists hashed, token. repeat split; reflexivity.
Qed.

(** X2. After a signup answered 201, a login with the same email and
    password is answered 200 with the name given at signup, provided the
    password checker accepts the hash the hasher made of that password (the
    contract of bcrypt) and a token can be made. *)
Theorem login_after_signup
    (st : db) (data : json) (b : body) (st1 : db) (data' : json) (token : string) :
  signup_ st data = (Response b 201, st1) ->
  (forall hashed, generate_password_hash (py_get data "password") = Ok hashed ->
                  check_password_hash hashed (py_get data "password") = Ok true) ->
  py_get data' "email" = py_get data "email" ->
  py_get data' "password" = py_get data "password" ->
  create_access_token (py_get data "email") = Ok token ->
  login_ st1 data'
  = (Reply [("token", VStr token); ("message", VStr "Login successful!");
            ("name", py_get data "name")] 200, st1).
Proof.
  intros H Hcheck He Hp Htok.
  destruct (signup_201 st data b st1 H)
    as (hashed & tok & _ & E2 & E3 & E4 & F & Hh & _ & _ & ->).
  unfold login. rewrite He, Hp, E2, E3. simpl orb. cbv iota.
  unfold encode. simpl forallb. rewrite E4. simpl.
  rewrite (find_one_app_r _ _ _ F). unfold Mongo.find_one. simpl.
  rewrite eq_match_refl. simpl. rewrite (Hcheck hashed Hh), Htok. reflexivity.
Qed.

(** X3. A login is answered 200 only when the first stored user whose
    email matches the request's exists and the password checker accepted
    the request's password against that user's stored hash; the name in the
    answer is that user's.  No login changes the store. *)
Theorem login_200_sound (st : db) (data : json) (fields : list (string * pyval))
    (st1 : db) :
  login_ st data = (Reply fields 200, st1) ->
  st1 = st /\
  exists user token,
    Mongo.find_one (fun u => eq_match (User.email u) (py_get data "email"))
                   (users_collection st) = Some user /\
    check_password_hash (User.password user) (py_get data "password") = Ok true /\
    fields = [("token", VStr token); ("message", VStr "Login successful!");
              ("name", User.name user)].
Proof.
  unfold login.
  destruct (py_not (py_get data "email") || py_not (py_get data "password"));
    [discriminate |].
  destruct (encode _); [| discriminate].
  destruct (Mongo.find_one _ _) as [user |]; [| discriminate].
  destruct (check_password_hash _ _) as [[|] |] eqn:C; try discriminate.
  destruct (create_access_token _) as [token |]; [| discriminate].
  intros H. injection H as <- <-. split; [reflexivity |].
  exists user, token. repeat split. exact C.
Qed.

End Accounts.

(** X4. After a signup answered 201 for an email that is a string, the
    profile of that identity is the name, email, address and phone of the
    signup request. *)
Theorem profile_after_signup
    (h t : pyval -> res string) (st : db) (data : json) (b : body) (st1 : db)
    (e : string) :
  signup h t st data = (Response b 201, st1) ->
  py_get data "email" = VStr e ->
  profile st1 (Some e)
  = (Reply [("name", py_get data "name"); ("email", VStr e);
            ("address", py_get data "address"); ("phone", py_get data "phone")] 200,
     st1).
Proof.
  intros H He.
  destruct (signup_201 h t st data b st1 H)
    as (hashed & tok & _ & _ & _ & _ & F & _ & _ & _ & ->).
  unfold profile. simpl users_collection. rewrite He in *.
  rewrite (find_one_app_r _ _ _ F). unfold Mongo.find_one. simpl.
  rewrite eq_match_refl. reflexivity.
Qed.

(** X5. After a signup answered 201, a second signup with the same email
    (and a name and a password) is answered 409 and changes nothing. *)
Theorem signup_twice
    (h t : pyval -> res string) (st : db) (data : json) (b : body) (st1 : db)
    (data' : json) :
  signup h t st data = (Response b 201, st1) ->
  py_get data' "email" = py_get data "email" ->
  py_not (py_get data' "name") = false ->
  py_not (py_get data' "password") = false ->
  signup h t st1 data'
  = (Response (Error "Email already registered") 409, st1).
Proof.
  intros H He Hn Hp.
  destruct (signup_201 h t st data b st1 H)
    as (hashed & tok & _ & E2 & _ & E4 & F & _ & _ & _ & ->).
  unfold signup. rewrite He, Hn, Hp, E2. simpl orb. cbv iota.
  unfold encode at 1. simpl forallb. rewrite E4. simpl.
  rewrite (find_one_app_r _ _ _ F). unfold Mongo.find_one. simpl.
  rewrite eq_match_refl. reflexivity.
Qed.

(* ===================================================================== *)
(** ** Reviews: ids, ratings and comments together *)
(* ===================================================================== *)

(** Among documents with pairwise distinct ids, the id of a document finds
    that document. *)
Lemma find_one_by_own_id (c : list Review.t) (r : Review.t) :
  NoDup (map Review._id c) ->
  In r c ->
  Mongo.find_one (Mongo.by_id (Review._id r)) c = Some r.
Proof.
  unfold Mongo.find_one.
  induction c as [| x c IH]; simpl; intros Hnd Hin; [destruct Hin |].
  apply NoDup_cons in Hnd as [Hx Hnd].
  destruct Hin as [-> | Hin].
  - unfold Mongo.by_id. rewrite N.eqb_refl. reflexivity.
  - replace (Mongo.by_id (Review._id r) x) with false.
    + apply IH; assumption.
    + symmetry. unfold Mongo.by_id. apply N.eqb_neq. intros Heq.
      apply Hx. rewrite Heq. apply list_elem_of_In, in_map. exact Hin.
Qed.

(** X6. In a store whose review ids are pairwise distinct and fit 12 bytes,
    every "_id" string that [get_reviews] hands out is accepted by
    [ObjectId] and is the id of the review it came with, and looking that id
    up finds that review. *)
Theorem get_reviews_ids_resolve
    (st : db) (args : gmap string string) (s : string) (r : Review.t) :
  wf_db st ->
  ids_12_bytes st ->
  (exists l, get_reviews st args = (Response (Reviews l) 200, st) /\ In (s, r) l) ->
  ObjectId (VStr s) = Ok (Review._id r) /\
  Mongo.find_one (Mongo.by_id (Review._id r)) (reviews_collection st) = Some r.
Proof.
  intros Hnodup Hbound (l & Hget & Hin). unfold ids_12_bytes in Hbound.
  rewrite get_reviews_eq in Hget. injection Hget as <-.
  apply in_map_iff in Hin as (r' & Heq & Hr'). injection Heq as <- ->.
  apply (Permutation_in _ (order_by_perm _ _)) in Hr'.
  unfold matching, Mongo.find in Hr'. apply filter_In in Hr' as [Hr' _].
  split.
  - apply ObjectId_oid_str.
    unfold ids_of in Hbound. rewrite Forall_map, List.Forall_forall in Hbound.
    specialize (Hbound r Hr'). simpl in Hbound. exact Hbound.
  - apply find_one_by_own_id; assumption.
Qed.

(** X7. A review that [add_review] has just stored shows in the unfiltered
    [get_reviews] with rating 0, count 0 and no comments, under the string
    of its id; a rating in 1..5 sent to that string is answered 200 and
    leaves the review with count 1. *)
Theorem new_review_is_listed_and_can_be_rated
    (st : db) (data : json) (b : body) (st1 : db) (r : Z) :
  (next_oid st < 2 ^ 96)%N ->
  add_review st data = (Response b 201, st1) ->
  1 <= r <= 5 ->
  let id := VStr (oid_str (next_oid st)) in
  (exists rv l,
     get_reviews st1 ∅ = (Response (Reviews l) 200, st1) /\
     In (oid_str (next_oid st), rv) l /\
     Review.rating rv = NInt 0 /\ Review.rating_count rv = 0 /\
     Review.comments rv = []) /\
  exists st2 rv2,
    update_rating st1 (rating_request id (VInt r))
    = (Response (Message "Rating updated successfully!") 200, st2) /\
    Mongo.find_one (Mongo.by_id (next_oid st)) (reviews_collection st2) = Some rv2 /\
    Review.rating_count rv2 = 1.
Proof.
  intros Hnext Hadd Hr id.
  destruct (add_review_created st data b st1 Hadd)
    as (rv & Hrv & _ & _ & Hid & Hr0 & Hc0 & Hcs & Hfresh).
  destruct (add_review_found st data b st1 Hadd) as (rv' & Hfind & _).
  assert (rv' = rv) as ->.
  { rewrite Hrv, (find_one_app_r _ _ _ (by_id_fresh _ _ Hfresh)) in Hfind.
    unfold Mongo.find_one in Hfind. simpl in Hfind.
    destruct (Mongo.by_id (next_oid st) rv); congruence. }
  split.
  - exists rv. eexists. split; [apply get_reviews_eq |].
    split; [| repeat split; assumption].
    apply in_map_iff. exists rv. split; [rewrite Hid; reflexivity |].
    rewrite lookup_empty. unfold order_by.
    rewrite (matching_all st1 ∅) by (intros k _; left; apply lookup_empty).
    rewrite Hrv. apply in_or_app. right. left. reflexivity.
  - destruct (update_rating_in_range st1 (rating_request id (VInt r)) id r
                (next_oid st) rv) as (f & Hf & Hup); try reflexivity; try assumption.
    + apply ObjectId_oid_str. exact Hnext.
    + split; [lia | left; split; assumption].
    + rewrite Hc0. reflexivity.
    + eexists. eexists. split; [exact Hup |]. simpl reviews_collection.
      split; [apply find_one_update_one; [apply by_id_set_rating | exact Hfind] |].
      simpl. rewrite Hc0. reflexivity.
Qed.

Lemma find_one_update_one_fmap {A B : Type} (g : A -> B) (p q : A -> bool)
    (f : A -> A) (c : list A) :
  (forall x, q (f x) = q x) ->
  (forall x, g (f x) = g x) ->
  g <$> Mongo.find_one q (Mongo.update_one p f c) = g <$> Mongo.find_one q c.
Proof.
  intros Hq Hg. unfold Mongo.find_one.
  induction c as [| x c IH]; simpl; [reflexivity |].
  destruct (p x); simpl.
  - rewrite Hq. destruct (q x); simpl; [rewrite Hg; reflexivity | reflexivity].
  - destruct (q x); [reflexivity | exact IH].
Qed.

(** X8. Ratings and comments do not touch each other: no [update_rating]
    changes the comments of any review, and no [add_comment] changes the
    rating or the rating_count of any review. *)
Theorem ratings_and_comments_are_independent
    (st : db) (data : json) (identity : option string) (j : oid) :
  comments_of (snd (update_rating st data)) j = comments_of st j /\
  (fun rv => (Review.rating rv, Review.rating_count rv))
    <$> Mongo.find_one (Mongo.by_id j)
          (reviews_collection (snd (add_comment st identity data)))
  = (fun rv => (Review.rating rv, Review.rating_count rv))
    <$> Mongo.find_one (Mongo.by_id j) (reviews_collection st).
Proof.
  split.
  - unfold comments_of, update_rating.
    destruct (update_rating_read st data) as [[early | [[i a] k]] | e];
      try reflexivity.
    unfold update_rating_write. destruct (encode _); [| reflexivity].
    simpl. apply find_one_update_one_fmap; intros x; reflexivity.
  - unfold add_comment. destruct identity as [e |]; [| reflexivity].
    destruct (py_not (py_get data "reviewId") || py_not (py_get data "comment"));
      [reflexivity |].
    destruct (ObjectId _); simpl; [| reflexivity].
    destruct (encode _); simpl; [| reflexivity].
    apply find_one_update_one_fmap; intros x; reflexivity.
Qed.

(** X9. A rating that is present but is not a number (a non-empty string or
    list) is not answered 400: comparing it with 1 raises TypeError, which
    leaves the handler; the store is unchanged. *)
Theorem update_rating_not_a_number (st : db) (data : json) :
  py_not (py_get data "reviewId") = false ->
  py_not (py_get data "rating") = false ->
  to_num (py_get data "rating") = None ->
  update_rating st data = (Raised TypeError, st).
Proof.
  intros Hid Hr Hn. unfold update_rating, update_rating_read.
  rewrite Hid, Hr. simpl orb. cbv iota.
  unfold int_le_py. rewrite Hn. reflexivity.
Qed.

(** X10. The rating [true] is taken as the rating 1: the two requests have
    the same answer and leave the same store. *)
Theorem update_rating_true_is_one (st : db) (data : json) :
  update_rating st (<["rating" := VBool true]> data)
  = update_rating st (<["rating" := VInt 1]> data).
Proof.
  unfold update_rating, update_rating_read, py_get.
  rewrite !lookup_insert_eq.
  rewrite !(lookup_insert_ne _ "rating" "reviewId") by discriminate.
  reflexivity.
Qed.

Lemma string_app_same_length (a b x y : string) :
  String.length a = String.length b ->
  (a ++ x)%string = (b ++ y)%string -> a = b.
Proof.
  revert b. induction a as [| c a IH]; intros [| d b] Hlen Heq;
    try discriminate; [reflexivity |].
  change (String c (a ++ x)%string = String d (b ++ y)%string) in Heq.
  injection Heq as -> Heq. f_equal. apply (IH b); [| exact Heq].
  simpl in Hlen. lia.
Qed.

Lemma string_app_inv_head (s x y : string) :
  (s ++ x)%string = (s ++ y)%string -> x = y.
Proof.
  induction s as [| c s IH]; intros H; [exact H |].
  change (String c (s ++ x)%string = String c (s ++ y)%string) in H.
  injection H as H. apply IH, H.
Qed.


(* ===================================================================== *)
(** ** upload_photos *)
(* ===================================================================== *)

Lemma rfind_from_last_or_later (c : ascii) (s : string) :
  forall i last, rfind_from c s i last = last \/ i <= rfind_from c s i last.
Proof.
  induction s as [| a s IH]; intros i last; simpl; [left; reflexivity |].
  destruct (IH (i + 1) (if Ascii.eqb a c then i else last)) as [H | H].
  - rewrite H. destruct (Ascii.eqb a c); [right; lia | left; reflexivity].
  - right. lia.
Qed.

(** Nothing after the index [rfind] returns is the character. *)
Lemma rfind_from_nothing_later (c : ascii) (s : string) :
  forall (i last : Z) (n : nat),
    rfind_from c s i last < Z.of_nat n + i ->
    str_mem c (str_drop n s) = false.
Proof.
  induction s as [| a s IH]; intros i last n Hn.
  - destruct n; reflexivity.
  - simpl in Hn. destruct n as [| n].
    + simpl str_drop. simpl str_mem.
      destruct (Ascii.eqb a c) eqn:E.
      * exfalso. destruct (rfind_from_last_or_later c s (i + 1) i); lia.
      * simpl. apply (IH (i + 1) last 0%nat). simpl. lia.
    + simpl str_drop. apply (IH (i + 1) (if Ascii.eqb a c then i else last) n). lia.
Qed.

(** The extension [splitext] returns never holds a slash. *)
Lemma splitext_no_slash (p : string) : str_mem "/" (snd (splitext p)) = false.
Proof.
  unfold splitext.
  destruct (rfind "." p >? rfind "/" p) eqn:E; [| reflexivity].
  destruct (all_dots _); [reflexivity |]. simpl snd.
  apply Z.gtb_lt in E.
  apply (rfind_from_nothing_later "/" p 0 (-1)). fold (rfind "/" p).
  assert (-1 <= rfind "/" p).
  { unfold rfind. destruct (rfind_from_last_or_later "/" p 0 (-1)); lia. }
  lia.
Qed.

Lemma str_mem_app (c : ascii) (s t : string) :
  str_mem c (s ++ t)%string = str_mem c s || str_mem c t.
Proof.
  induction s as [| a s IH]; [reflexivity |].
  change (Ascii.eqb a c || str_mem c (s ++ t)%string
          = Ascii.eqb a c || str_mem c s || str_mem c t).
  rewrite IH, orb_assoc. reflexivity.
Qed.

Lemma path_join_upload_folder (name : string) :
  starts_with_slash name = false ->
  path_join UPLOAD_FOLDER name = ("/tmp/uploads/" ++ name)%string.
Proof. intros H. unfold path_join. rewrite H. reflexivity. Qed.

Lemma uuid_like_name (u ext : string) :
  uuid_like u -> starts_with_slash (u ++ ext)%string = false.
Proof.
  intros [Hlen Hmem]. destruct u as [| a u]; [discriminate |].
  simpl in Hmem. apply orb_false_iff in Hmem as [Ha _]. exact Ha.
Qed.

Section UploadFacts.
Variable uuid4 : nat -> string.
Variable bound : nat.
Hypothesis uuid4_like : forall n, (n < bound)%nat -> uuid_like (uuid4 n).
Hypothesis uuid4_fresh :
  forall n m, (n < bound)%nat -> (m < bound)%nat -> n <> m -> uuid4 n <> uuid4 m.

Let name_of (n : nat) (file : upload) : string :=
  (uuid4 n ++ snd (splitext (filename file)))%string.

Lemma save_files_writes (files : list upload) :
  forall (n : nat) (fs : disk) (path : string),
    (n + length files <= bound)%nat ->
    snd (save_files uuid4 n files fs) !! path <> fs !! path ->
    exists name, path = ("/tmp/uploads/" ++ name)%string /\
                 str_mem "/" name = false.
Proof.
  induction files as [| file rest IH]; intros n fs path Hb Hne; simpl in Hne, Hb.
  - congruence.
  - fold (name_of n file) in Hne.
    destruct (save_files uuid4 (S n) rest
                (<[path_join UPLOAD_FOLDER (name_of n file) := content file]> fs))
      as [urls fs'] eqn:E.
    simpl in Hne.
    assert (Hlike : uuid_like (uuid4 n)) by (apply uuid4_like; lia).
    assert (Hpath : path_join UPLOAD_FOLDER (name_of n file)
                    = ("/tmp/uploads/" ++ name_of n file)%string).
    { apply path_join_upload_folder, uuid_like_name, Hlike. }
    destruct (decide (path = path_join UPLOAD_FOLDER (name_of n file)))
      as [-> | Hother].
    + exists (name_of n file). split; [exact Hpath |].
      unfold name_of. rewrite str_mem_app, splitext_no_slash.
      destruct Hlike as [_ ->]. reflexivity.
    + apply (IH (S n)
               (<[path_join UPLOAD_FOLDER (name_of n file) := content file]> fs)
               path); [lia |].
      rewrite E. simpl. rewrite lookup_insert_ne by congruence. exact Hne.
Qed.

Lemma name_of_inj (n m : nat) (f g : upload) :
  (n < bound)%nat -> (m < bound)%nat -> n <> m ->
  path_join UPLOAD_FOLDER (name_of n f) <> path_join UPLOAD_FOLDER (name_of m g).
Proof.
  intros Hn Hm Hnm Heq. unfold name_of in Heq.
  rewrite !path_join_upload_folder in Heq
    by (apply uuid_like_name, uuid4_like; assumption).
  apply string_app_inv_head in Heq.
  apply string_app_same_length in Heq.
  - exact (uuid4_fresh n m Hn Hm Hnm Heq).
  - destruct (uuid4_like n Hn) as [-> _], (uuid4_like m Hm) as [-> _]. reflexivity.
Qed.

Lemma save_files_frame (files : list upload) :
  forall (n : nat) (fs : disk) (path : string),
    (forall k file, files !! k = Some file ->
       path <> path_join UPLOAD_FOLDER (name_of (n + k) file)) ->
    snd (save_files uuid4 n files fs) !! path = fs !! path.
Proof.
  induction files as [| file rest IH]; intros n fs path Hfree; simpl.
  - reflexivity.
  - fold (name_of n file).
    destruct (save_files uuid4 (S n) rest
                (<[path_join UPLOAD_FOLDER (name_of n file) := content file]> fs))
      as [urls fs'] eqn:E.
    simpl. replace fs' with (snd (save_files uuid4 (S n) rest
                (<[path_join UPLOAD_FOLDER (name_of n file) := content file]> fs)))
      by (rewrite E; reflexivity).
    rewrite IH.
    + apply lookup_insert_ne. intros Heq.
      apply (Hfree 0%nat file); [reflexivity |].
      rewrite Nat.add_0_r. symmetry. exact Heq.
    + intros k f Hk. replace (S n + k)%nat with (n + S k)%nat by lia.
      apply (Hfree (S k) f). exact Hk.
Qed.

Lemma save_files_saved (files : list upload) :
  forall (n : nat) (fs : disk),
    (n + length files <= bound)%nat ->
    length (fst (save_files uuid4 n files fs)) = length files /\
    forall i file url,
      files !! i = Some file ->
      fst (save_files uuid4 n files fs) !! i = Some url ->
      snd (save_files uuid4 n files fs) !! ("/tmp" ++ url)%string
      = Some (content file).
Proof.
  induction files as [| file rest IH]; intros n fs Hb; simpl in Hb |- *.
  - split; [reflexivity |]. intros i file url H. discriminate.
  - fold (name_of n file).
    destruct (IH (S n)
      (<[path_join UPLOAD_FOLDER (name_of n file) := content file]> fs))
      as [Hlen Hall]; [lia |].
    pose proof (save_files_frame rest (S n)
      (<[path_join UPLOAD_FOLDER (name_of n file) := content file]> fs)
      (path_join UPLOAD_FOLDER (name_of n file))) as Hfr.
    destruct (save_files uuid4 (S n) rest
                (<[path_join UPLOAD_FOLDER (name_of n file) := content file]> fs))
      as [urls fs'] eqn:E.
    simpl in *.
    split; [rewrite Hlen; reflexivity |].
    intros [| i] f url Hf Hurl; simpl in Hf, Hurl.
    + injection Hf as <-. injection Hurl as <-.
      change ("/tmp" ++ "/uploads/" ++ name_of n file)%string
        with ("/tmp/uploads/" ++ name_of n file)%string.
      rewrite <- path_join_upload_folder
        by (apply uuid_like_name, uuid4_like; lia).
      rewrite Hfr; [apply lookup_insert_eq |].
      intros k g Hk. apply lookup_lt_Some in Hk.
      apply name_of_inj; lia.
    + apply (Hall i f url Hf Hurl).
Qed.

End UploadFacts.

(** X11. Whatever file names the client sends, [upload_photos] writes only
    directly inside the upload folder: every path whose content it changes
    is "/tmp/uploads/" followed by a name without a slash.  (The uuid
    strings drawn are 36 characters without a slash.) *)
Theorem upload_photos_stays_in_folder
    (uuid4 : nat -> string) (files : gmap string (list upload)) (fs : disk)
    (path : string) :
  (forall n photos, files !! "photos" = Some photos ->
     (n < length photos)%nat -> uuid_like (uuid4 n)) ->
  snd (upload_photos uuid4 files fs) !! path <> fs !! path ->
  exists name, path = ("/tmp/uploads/" ++ name)%string /\
               str_mem "/" name = false.
Proof.
  intros Hlike. unfold upload_photos.
  destruct (files !! "photos") as [photos |].
  - destruct (save_files uuid4 0 photos fs) as [urls fs'] eqn:E. simpl.
    intros Hne.
    apply (save_files_writes uuid4 (length photos) (fun n => Hlike n photos eq_refl)
             photos 0%nat fs path); [simpl; lia |].
    rewrite E. exact Hne.
  - simpl. congruence.
Qed.


(* ===================================================================== *)
(** ** generate_itinerary and send_message *)
(* ===================================================================== *)

(** X13. [generate_itinerary] always answers, with 200, 400 or 500.  It
    answers 400 exactly when destination, budget or transport is missing or
    falsy, and 200 exactly when all three are there and the service
    returned a non-empty text, which is then the itinerary of the answer; an
    exception of the service or an empty text is a 500. *)
Theorem generate_itinerary_status (g : list piece -> generated) (data : json) :
  let required_missing :=
    py_not (py_get data "destination") || py_not (py_get data "budget")
    || py_not (py_get data "transport") in
  let prompt :=
    itinerary_prompt (py_get data "destination") (py_get data "budget")
      (py_get data "transport")
      (py_get_default data "dates" (VStr "not specified"))
      (py_get_default data "purpose" (VStr "general travel")) in
  exists fields status,
    generate_itinerary g data = Reply fields status /\
    (status = 200 \/ status = 400 \/ status = 500) /\
    (status = 400 <-> required_missing = true) /\
    (status = 200 <->
     required_missing = false /\
     exists text, text <> "" /\ g prompt = GeneratedText text /\
                  fields = [("itinerary", VStr text)]).
Proof.
  intros required_missing prompt. unfold generate_itinerary.
  fold required_missing. fold prompt.
  destruct required_missing eqn:E.
  - eexists. eexists. split; [reflexivity |].
    split; [auto |]. split; [tauto |].
    split; [discriminate | intros [H _]; discriminate].
  - destruct (g prompt) as [message | text] eqn:G.
    + eexists. eexists. split; [reflexivity |].
      split; [auto |]. split; [split; discriminate |].
      split; [discriminate |]. intros [_ (text & _ & H & _)]. discriminate.
    + destruct (String.eqb text "") eqn:T.
      * apply String.eqb_eq in T. subst text.
        eexists. eexists. split; [reflexivity |].
        split; [auto |]. split; [split; discriminate |].
        split; [discriminate |].
        intros [_ (text & Hne & H & _)]. congruence.
      * apply String.eqb_neq in T.
        eexists. eexists. split; [reflexivity |].
        split; [auto |]. split; [split; discriminate |].
        split; [| reflexivity]. intros _. split; [reflexivity |].
        exists text. repeat split. exact T.
Qed.


(* ===================================================================== *)
(** ** The properties above at sample requests *)
(* ===================================================================== *)

Lemma login_after_signup_witness :
  login check_stub token_stub one_user sample_user
  = (Reply [("token", VStr "token"); ("message", VStr "Login successful!");
            ("name", py_get sample_user "name")] 200, one_user).
Proof.
  apply (login_after_signup hash_stub token_stub check_stub empty_db sample_user
           (SignedUp "Signup successful!" "token" (VStr "Ann")) one_user
           sample_user "token").
  - reflexivity.
  - intros hashed _. reflexivity.
  - reflexivity.
  - reflexivity.
  - reflexivity.
Defined.

Lemma login_200_sound_witness :
  one_user = one_user /\
  exists user token,
    Mongo.find_one (fun u => eq_match (User.email u) (py_get sample_user "email"))
                   (users_collection one_user) = Some user /\
    check_stub (User.password user) (py_get sample_user "password") = Ok true /\
    [("token", VStr "token"); ("message", VStr "Login successful!");
     ("name", VStr "Ann")]
    = [("token", VStr token); ("message", VStr "Login successful!");
       ("name", User.name user)].
Proof.
  apply (login_200_sound token_stub check_stub one_user sample_user
           [("token", VStr "token"); ("message", VStr "Login successful!");
            ("name", VStr "Ann")] one_user).
  reflexivity.
Defined.

Lemma profile_after_signup_witness :
  profile one_user (Some "ann@example.org")
  = (Reply [("name", py_get sample_user "name"); ("email", VStr "ann@example.org");
            ("address", py_get sample_user "address");
            ("phone", py_get sample_user "phone")] 200, one_user).
Proof.
  apply (profile_after_signup hash_stub token_stub empty_db sample_user
           (SignedUp "Signup successful!" "token" (VStr "Ann")) one_user
           "ann@example.org").
  - reflexivity.
  - reflexivity.
Defined.

Lemma signup_twice_witness :
  signup hash_stub token_stub one_user sample_user
  = (Response (Error "Email already registered") 409, one_user).
Proof.
  apply (signup_twice hash_stub token_stub empty_db sample_user
           (SignedUp "Signup successful!" "token" (VStr "Ann")) one_user
           sample_user).
  - reflexivity.
  - reflexivity.
  - reflexivity.
  - reflexivity.
Defined.

Lemma get_reviews_ids_resolve_witness :
  ObjectId (VStr "000000000000000000000000") = Ok (Review._id sample_stored) /\
  Mongo.find_one (Mongo.by_id (Review._id sample_stored))
                 (reviews_collection one_review) = Some sample_stored.
Proof.
  apply (get_reviews_ids_resolve one_review ∅ "000000000000000000000000"
           sample_stored).
  - unfold wf_db. change (ids_of one_review) with [0%N]. apply NoDup_singleton.
  - unfold ids_12_bytes. change (ids_of one_review) with [0%N].
    constructor; [reflexivity | constructor].
  - eexists. split; [reflexivity |]. left. reflexivity.
Defined.

Lemma new_review_is_listed_and_can_be_rated_witness :
  (exists rv l,
     get_reviews one_review ∅ = (Response (Reviews l) 200, one_review) /\
     In (oid_str 0%N, rv) l /\
     Review.rating rv = NInt 0 /\ Review.rating_count rv = 0 /\
     Review.comments rv = []) /\
  exists st2 rv2,
    update_rating one_review (rating_request (VStr (oid_str 0%N)) (VInt 4))
    = (Response (Message "Rating updated successfully!") 200, st2) /\
    Mongo.find_one (Mongo.by_id 0%N) (reviews_collection st2) = Some rv2 /\
    Review.rating_count rv2 = 1.
Proof.
  apply (new_review_is_listed_and_can_be_rated empty_db sample_review
           (Message "Review added successfully!") one_review 4).
  - reflexivity.
  - reflexivity.
  - lia.
Defined.

Lemma update_rating_not_a_number_witness :
  update_rating one_review (rating_request id0 (VStr "4"))
  = (Raised TypeError, one_review).
Proof.
  apply (update_rating_not_a_number one_review (rating_request id0 (VStr "4")));
    reflexivity.
Defined.

Lemma update_rating_no_such_review_witness :
  update_rating one_review (rating_request id7 (VInt 3))
  = (Response (Error "Review not found.") 404, one_review).
Proof.
  apply (update_rating_no_such_review one_review (rating_request id7 (VInt 3))
           id7 3 7%N).
  - reflexivity.
  - reflexivity.
  - lia.
  - reflexivity.
  - reflexivity.
Defined.

Lemma update_rating_other_review_witness :
  Mongo.find_one (Mongo.by_id 0%N)
    (reviews_collection
       (snd (update_rating three_reviews (rating_request id1 (VInt 2)))))
  = Mongo.find_one (Mongo.by_id 0%N) (reviews_collection three_reviews).
Proof.
  apply (update_rating_other_review three_reviews (rating_request id1 (VInt 2)) 0%N).
  vm_compute. discriminate.
Defined.

Lemma ObjectId_oid_str_witness : ObjectId (VStr (oid_str 7%N)) = Ok 7%N.
Proof. apply (ObjectId_oid_str 7%N). reflexivity. Defined.

Lemma reachable_db_ok_witness : db_ok one_review.
Proof.
  apply (reachable_db_ok hash_stub token_stub one_review).
  change one_review
    with (snd (handle hash_stub token_stub empty_db (AddReview sample_review))).
  apply reachable_step, reachable_empty.
Defined.

Lemma uuid_stub_like (n : nat) : uuid_like (uuid_stub n).
Proof. destruct n as [| n]; split; reflexivity. Qed.

Lemma upload_photos_stays_in_folder_witness :
  exists name,
    "/tmp/uploads/00000000-0000-4000-8000-000000000001"
    = ("/tmp/uploads/" ++ name)%string /\
    str_mem "/" name = false.
Proof.
  apply (upload_photos_stays_in_folder uuid_stub two_photos ∅
           "/tmp/uploads/00000000-0000-4000-8000-000000000001").
  - intros n photos _ _. destruct n as [| n]; split; reflexivity.
  - vm_compute. discriminate.
Defined.


(** The client's "../notes" ends up as a file of the upload folder. *)
Lemma upload_photos_sample :
  upload_photos uuid_stub two_photos ∅
  = (Reply [("message", VStr "Photos uploaded successfully!");
            ("urls", VList [VStr "/uploads/00000000-0000-4000-8000-000000000000.jpg";
                            VStr "/uploads/00000000-0000-4000-8000-000000000001"])]
           201,
     {[ "/tmp/uploads/00000000-0000-4000-8000-000000000000.jpg" := "JPEG";
        "/tmp/uploads/00000000-0000-4000-8000-000000000001" := "text" ]}).
Proof. vm_compute. reflexivity. Qed.
